(** * abdibot: the polling loop, the log tailer and the death-message extractor

    A shallow embedding of [bot.py].  Bytes and text are both modelled by
    [string]: a file is its bytes, a Python [str] is held in UTF-8.  On
    7-bit text, one [ascii] per character, the string primitives below are
    those of Python; bytes above 127 are carried along but are treated as
    neither whitespace, nor digits, nor word characters, nor letters with a
    case, so statements that depend on such a classification are made for
    7-bit text ([is_ascii]).

    Global variables of the module, the files it owns and everything it
    prints or sends live in one [State] record that is threaded through a
    small state-and-exception monad; the answers of the outside world (RCON
    server, SFTP server, local file system, Discord) are read from explicit
    per-call records. *)

From Stdlib Require Import ZArith Lia Bool Ascii String List DecimalString.
From Stdlib Require Import DecimalZ DecimalPos.
From stdpp Require Import base decidable list gmap strings sorting.

Local Open Scope Z_scope.

(* ===================================================================== *)
(** ** Python string primitives *)
(* ===================================================================== *)

Module PyStr.

(** [str.isspace] on one character: TAB..CR, FS..US and the space. *)
Definition is_space (c : ascii) : bool :=
  let n := nat_of_ascii c in
  ((9 <=? n)%nat && (n <=? 13)%nat) || ((28 <=? n)%nat && (n <=? 32)%nat).

Definition is_digit (c : ascii) : bool :=
  let n := nat_of_ascii c in (48 <=? n)%nat && (n <=? 57)%nat.

Definition is_upper (c : ascii) : bool :=
  let n := nat_of_ascii c in (65 <=? n)%nat && (n <=? 90)%nat.

Definition is_lower (c : ascii) : bool :=
  let n := nat_of_ascii c in (97 <=? n)%nat && (n <=? 122)%nat.

(** The class [\w] of the [re] module. *)
Definition is_word (c : ascii) : bool :=
  is_digit c || is_upper c || is_lower c || Ascii.eqb c "_".

Definition lower (c : ascii) : ascii :=
  if is_upper c then ascii_of_nat (nat_of_ascii c + 32) else c.

Definition is_empty (s : string) : bool :=
  match s with EmptyString => true | String _ _ => false end.

(** [s.lstrip()], [s.rstrip()], [s.strip()] *)
Fixpoint lstrip (s : string) : string :=
  match s with
  | EmptyString => EmptyString
  | String c s' => if is_space c then lstrip s' else s
  end.

Fixpoint rstrip (s : string) : string :=
  match s with
  | EmptyString => EmptyString
  | String c s' =>
      let r := rstrip s' in
      if is_empty r && is_space c then EmptyString else String c r
  end.

Definition strip (s : string) : string := rstrip (lstrip s).

(** [s.startswith(p)] *)
Fixpoint startswith (p s : string) : bool :=
  match p, s with
  | EmptyString, _ => true
  | String a p', String b s' => Ascii.eqb a b && startswith p' s'
  | String _ _, EmptyString => false
  end.

(** [s.find(p)]: index of the first occurrence, [-1] when there is none. *)
Fixpoint find_from (i : Z) (p s : string) : Z :=
  if startswith p s then i
  else match s with
       | EmptyString => -1
       | String _ s' => find_from (i + 1) p s'
       end.

Definition find (p s : string) : Z := find_from 0 p s.

(** [p in s] *)
Definition contains (p s : string) : bool := negb (find p s =? -1)%Z.

(** [s[n:]] for [n >= 0] *)
Fixpoint drop (n : nat) (s : string) : string :=
  match n, s with
  | O, _ => s
  | S n', String _ s' => drop n' s'
  | S _, EmptyString => EmptyString
  end.

(** [s[:n]] for [n >= 0] *)
Fixpoint take (n : nat) (s : string) : string :=
  match n, s with
  | O, _ => EmptyString
  | S n', String c s' => String c (take n' s')
  | S _, EmptyString => EmptyString
  end.

(** [s[i:]] for an integer [i >= 0]. *)
Definition slice_from (i : Z) (s : string) : string := drop (Z.to_nat i) s.

(** [s.split(c)] for a one-character separator. *)
Fixpoint split_char (c : ascii) (s : string) : list string :=
  match s with
  | EmptyString => [EmptyString]
  | String a s' =>
      if Ascii.eqb a c then EmptyString :: split_char c s'
      else match split_char c s' with
           | h :: t => String a h :: t
           | [] => [String a EmptyString]
           end
  end.

(** [s.split(sep, 1)] for a non-empty separator: at most one cut, at the
    first occurrence of [sep]. *)
Fixpoint split_once (sep s : string) : list string :=
  if startswith sep s then [EmptyString; drop (String.length sep) s]
  else match s with
       | EmptyString => [EmptyString]
       | String a s' =>
           match split_once sep s' with
           | [h] => [String a h]
           | [h; r] => [String a h; r]
           | _ => [s]
           end
       end.

(** [f.readlines()] of a text-mode file (universal newlines): lines keep
    their terminator, and "\r\n" and "\r" are read as "\n". *)
Definition nl : ascii := ascii_of_nat 10.
Definition cr : ascii := ascii_of_nat 13.

(** Newline translation of text mode: "\r\n" and a lone "\r" become "\n". *)
Fixpoint translate_newlines (s : string) : string :=
  match s with
  | EmptyString => EmptyString
  | String a s' =>
      if Ascii.eqb a cr then
        match s' with
        | String b s'' =>
            if Ascii.eqb b nl then String nl (translate_newlines s'')
            else String nl (translate_newlines s')
        | EmptyString => String nl EmptyString
        end
      else String a (translate_newlines s')
  end.

Fixpoint lines_keepends (s : string) : list string :=
  match s with
  | EmptyString => []
  | String a s' =>
      if Ascii.eqb a nl then String nl EmptyString :: lines_keepends s'
      else match lines_keepends s' with
           | h :: t => String a h :: t
           | [] => [String a EmptyString]
           end
  end.

Definition readlines (s : string) : list string :=
  lines_keepends (translate_newlines s).

End PyStr.

(** [int(s)] and [str(n)] for decimal integers *)
Module PyInt.
Import PyStr.

Definition digit_val (c : ascii) : Z := Z.of_nat (nat_of_ascii c) - 48.

(** Digits, with single underscores allowed between two digits. *)
Fixpoint parse_digits (acc : Z) (after_digit : bool) (s : string) : option Z :=
  match s with
  | EmptyString => if after_digit then Some acc else None
  | String c s' =>
      if is_digit c then parse_digits (10 * acc + digit_val c) true s'
      else if Ascii.eqb c "_" && after_digit then parse_digits acc false s'
      else None
  end.

(** The whitespace that [int] skips around the literal of a 7-bit string:
    TAB..CR and the space, but not FS..US, which [str.strip] removes. *)
Definition is_int_space (c : ascii) : bool :=
  let n := nat_of_ascii c in
  ((9 <=? n)%nat && (n <=? 13)%nat) || (n =? 32)%nat.

Fixpoint lstrip_int (s : string) : string :=
  match s with
  | EmptyString => EmptyString
  | String c s' => if is_int_space c then lstrip_int s' else s
  end.

Fixpoint rstrip_int (s : string) : string :=
  match s with
  | EmptyString => EmptyString
  | String c s' =>
      let r := rstrip_int s' in
      if is_empty r && is_int_space c then EmptyString else String c r
  end.

(** What is left of a literal once its sign is taken off. *)
Definition unsigned_part (t : string) : string :=
  match t with
  | String "-" r => r
  | String "+" r => r
  | _ => t
  end.

Definition is_negative (t : string) : bool :=
  match t with
  | String "-" _ => true
  | _ => false
  end.

(** [sys.get_int_max_str_digits()], the interpreter's default *)
Definition max_str_digits : Z := 4300.

Fixpoint count_digits (s : string) : Z :=
  match s with
  | EmptyString => 0
  | String c s' => (if is_digit c then 1 else 0) + count_digits s'
  end.

(** [int(s)] for a string [s]: [None] stands for [ValueError].  Whitespace
    around the literal and one sign are accepted, as are single underscores
    between digits; a literal of more than 4300 digits is refused. *)
Definition py_int (s : string) : option Z :=
  let t := rstrip_int (lstrip_int s) in
  let body := unsigned_part t in
  match parse_digits 0 false body with
  | Some n =>
      if count_digits body >? max_str_digits then None
      else Some (if is_negative t then - n else n)
  | None => None
  end.

(** [str(n)].  The interpreter's limit of 4300 digits is left out: [str] is
    applied to sizes of files, to positions that [int] has accepted and to
    the counter of the loop. *)
Definition py_str (n : Z) : string := NilZero.string_of_int (Z.to_int n).

(** [repr(s)] for 7-bit text *)
Definition squote : ascii := "'".
Definition dquote : ascii := ascii_of_nat 34.
Definition backslash : ascii := "\".

Definition hex_digit (n : nat) : ascii :=
  match String.get n "0123456789abcdef" with
  | Some c => c
  | None => "0"
  end.

Definition has_char (c : ascii) (s : string) : bool :=
  existsb (Ascii.eqb c) (list_ascii_of_string s).

Definition repr_char (quote c : ascii) : string :=
  let n := nat_of_ascii c in
  if Ascii.eqb c backslash then String backslash (String backslash "")
  else if Ascii.eqb c quote then String backslash (String quote "")
  else if (n =? 9)%nat then String backslash "t"
  else if (n =? 10)%nat then String backslash "n"
  else if (n =? 13)%nat then String backslash "r"
  else if (n <? 32)%nat || (n =? 127)%nat then
    String backslash
      (String "x" (String (hex_digit (n / 16)) (String (hex_digit (n mod 16)) "")))
  else String c "".

Definition py_repr (s : string) : string :=
  let quote := if has_char squote s && negb (has_char dquote s)
               then dquote else squote in
  String quote
    (String.concat "" (map (repr_char quote) (list_ascii_of_string s))
     ++ String quote "")%string.

(** The longest prefix of digits and underscores, and what follows it. *)
Fixpoint digit_run (s : string) : string * string :=
  match s with
  | EmptyString => (EmptyString, EmptyString)
  | String c s' =>
      if is_digit c || Ascii.eqb c "_" then
        let (run, rest) := digit_run s' in (String c run, rest)
      else (EmptyString, s)
  end.

(** The message of the [ValueError] that [int(s)] raises when it raises:
    the digit limit is reported as soon as the run of digits is well formed
    and too long, whatever follows; otherwise the literal is shown, as its
    [repr] cut to 200 characters. *)
Definition int_error_message (s : string) : string :=
  let run := fst (digit_run (unsigned_part (lstrip_int s))) in
  match parse_digits 0 false run with
  | Some _ =>
      if count_digits run >? max_str_digits then
        ("Exceeds the limit (4300 digits) for integer string conversion: value has "
         ++ py_str (count_digits run)
         ++ " digits; use sys.set_int_max_str_digits() to increase the limit")%string
      else ("invalid literal for int() with base 10: " ++ take 200 (py_repr s))%string
  | None => ("invalid literal for int() with base 10: " ++ take 200 (py_repr s))%string
  end.

End PyInt.

(* ===================================================================== *)
(** ** Regular expressions: the fragment of [re] used by the extractor *)
(* ===================================================================== *)

Module Re.
Import PyStr.

Inductive regex : Type :=
| Eps                              (* the empty pattern *)
| Chr (c : ascii)                  (* a literal character *)
| Dot                              (* [.]: anything but a newline *)
| Word                             (* [\w] *)
| Cat (r1 r2 : regex)
| Alt (r1 r2 : regex)
| Star (r : regex).                (* [r*] and [r*?] accept the same words *)

Definition Plus (r : regex) : regex := Cat r (Star r).

(** A literal string, as produced by [re.escape]. *)
Fixpoint lit (s : string) : regex :=
  match s with
  | EmptyString => Eps
  | String c s' => Cat (Chr c) (lit s')
  end.

(** [a|b|...] *)
Fixpoint alts (rs : list regex) : regex :=
  match rs with
  | [] => Eps
  | [r] => r
  | r :: rs' => Alt r (alts rs')
  end.

(** [accepts icase r s k]: some prefix of [s] is matched by [r] and the
    continuation [k] accepts what is left.  Whether a match exists does not
    depend on the order in which the alternatives are tried, so greedy and
    lazy repetition need not be told apart.  [icase] is [re.IGNORECASE]. *)
Fixpoint accepts (icase : bool) (r : regex) (s : string) (k : string -> bool)
  : bool :=
  match r with
  | Eps => k s
  | Chr c =>
      match s with
      | String a s' =>
          if (if icase then Ascii.eqb (lower a) (lower c) else Ascii.eqb a c)
          then k s' else false
      | EmptyString => false
      end
  | Dot =>
      match s with
      | String a s' => if Ascii.eqb a nl then false else k s'
      | EmptyString => false
      end
  | Word =>
      match s with
      | String a s' => if is_word a then k s' else false
      | EmptyString => false
      end
  | Cat r1 r2 => accepts icase r1 s (fun s' => accepts icase r2 s' k)
  | Alt r1 r2 => if accepts icase r1 s k then true else accepts icase r2 s k
  | Star r1 =>
      (fix iter (fuel : nat) (s0 : string) {struct fuel} : bool :=
         if k s0 then true
         else
           match fuel with
           | O => false
           | S fuel' =>
               accepts icase r1 s0
                 (fun s' =>
                    if (String.length s' <? String.length s0)%nat
                    then iter fuel' s' else false)
           end) (String.length s) s
  end.

Fixpoint suffixes (s : string) : list string :=
  s :: match s with
       | EmptyString => []
       | String _ s' => suffixes s'
       end.

(** [pattern.search(s)] seen as a truth value: is there a match starting
    anywhere in [s]? *)
Definition search (icase : bool) (r : regex) (s : string) : bool :=
  existsb (fun t => accepts icase r t (fun _ => true)) (suffixes s).

End Re.

(* ===================================================================== *)
(** ** The death-message extractor ([parse_death_messages]) *)
(* ===================================================================== *)

(** The vocabulary, in the order of the source.  The eighth entry is written
    in the source as an ordinary (not raw) literal whose backslashes are kept
    by Python, so they belong to the phrase. *)
Definition death_keywords : list string :=
  [ "was pricked to death";
    "walked into a cactus";
    "drowned";
    "died from dehydration";
    "experienced kinetic energy";
    "blew up";
    "was blown up";
    "was killed by \[Intentional Game Design\]";
    "hit the ground too hard";
    "fell from a high place";
    "fell off a ladder";
    "fell off some vines";
    "fell off some weeping vines";
    "fell off some twisting vines";
    "fell off scaffolding";
    "fell while climbing";
    "was doomed to fall";
    "was impaled on a stalagmite";
    "was squashed by a falling anvil";
    "was squashed by a falling block";
    "was skewered by a falling stalactite";
    "went up in flames";
    "walked into fire";
    "burned to death";
    "was burned to a crisp";
    "went off with a bang";
    "tried to swim in lava";
    "was struck by lightning";
    "discovered the floor was lava";
    "walked into the danger zone";
    "was killed by magic";
    "froze to death";
    "was frozen to death";
    "was slain by";
    "was stung to death";
    "was obliterated by a sonically-charged shriek";
    "was smashed by";
    "was shot by";
    "was pummeled by";
    "was fireballed by";
    "was shot by a skull from";
    "starved to death";
    "suffocated in a wall";
    "was squished too much";
    "was squashed by";
    "left the confines of this world";
    "was poked to death by a sweet berry bush";
    "was killed while trying to hurt";
    "was impaled by";
    "fell out of the world";
    "didn't want to live in the same world as";
    "withered away";
    "died";
    "was killed";
    "was roasted in dragon";
    "was sniped by";
    "was spitballed by" ].

(** [re.compile(r'\[.*?\]: (\w+) (' + '|'.join(re.escape(kw) ...) + ')',
    re.IGNORECASE)] *)
Definition death_pattern : Re.regex :=
  Re.Cat (Re.Chr "[")
    (Re.Cat (Re.Star Re.Dot)
       (Re.Cat (Re.lit "]: ")
          (Re.Cat (Re.Plus Re.Word)
             (Re.Cat (Re.Chr " ")
                (Re.alts (map Re.lit death_keywords)))))).

(** [x in l] for a list of strings *)
Definition py_in (x : string) (l : list string) : bool :=
  existsb (String.eqb x) l.

(** One turn of the [for line in lines] loop; [death_messages] is the list
    accumulated so far. *)
Definition parse_line (death_messages : list string) (line : string)
  : list string :=
  if Re.search true death_pattern line then
    let msg_start := PyStr.find "]: " line + 3 in
    if msg_start >? 3 then
      let death_msg := PyStr.strip (PyStr.slice_from msg_start line) in
      if PyStr.is_empty death_msg then death_messages
      else if py_in death_msg death_messages then death_messages
      else death_messages ++ [death_msg]
    else death_messages
  else death_messages.

Definition parse_death_messages (lines : list string) : list string :=
  fold_left parse_line lines [].

(* ===================================================================== *)
(** ** Configuration *)
(* ===================================================================== *)

(** The module-level settings read with [os.getenv].  A setting without a
    default is [None] when the variable is not defined. *)
Record Config : Type := {
  TOKEN : option string;
  CHANNEL_ID : option string;
  RCON_HOST : option string;
  RCON_PORT : string;              (* default "25575" *)
  RCON_PASSWORD : option string;
  POLL_SECONDS : string;           (* default "5" *)
  NOTIFY_LOGOUT : bool;
  LOG_FILE_PATH : string;          (* default "" *)
  SFTP_HOST : string;              (* default "" *)
  SFTP_PORT : string;              (* default "22" *)
  SFTP_USERNAME : string;          (* default "" *)
  SFTP_PASSWORD : string;          (* after the password-file workaround *)
  SFTP_LOG_PATH : string           (* default "" *)
}.

(** Python truthiness of a setting: [None] and "" are false. *)
Definition truthy (s : string) : bool := negb (PyStr.is_empty s).

Definition truthy_opt (o : option string) : bool :=
  match o with
  | Some s => truthy s
  | None => false
  end.

(* ===================================================================== *)
(** ** State, exceptions and the outside world *)
(* ===================================================================== *)

Inductive Level : Type := INFO | WARNING | ERROR.

Inductive exn : Type :=
| RconFailure (detail : string)        (* MCRcon: connect, login or command *)
| ValueError (detail : string)
| TypeError (detail : string)
| FileNotFoundError (detail : string)
| OSError (detail : string)
| OverflowError (detail : string)
| DiscordFailure (detail : string).

(** [str(e)] *)
Definition str_exn (e : exn) : string :=
  match e with
  | RconFailure d | ValueError d | TypeError d
  | FileNotFoundError d | OSError d | OverflowError d | DiscordFailure d => d
  end.

(** What a failing [int(s)] raises. *)
Definition int_error (s : string) : exn := ValueError (PyInt.int_error_message s).

(** What [int(None)] raises. *)
Definition int_none_error : exn :=
  TypeError
    "int() argument must be a string, a bytes-like object or a real number, not 'NoneType'".

Definition is_FileNotFoundError (e : exn) : bool :=
  match e with
  | FileNotFoundError _ => true
  | _ => false
  end.

(** What the process asks of its environment, in the order it asks. *)
Inductive IOAction : Type :=
| ReadPositionFile
| WritePositionFile (content : string)
| SftpProbe
| SftpConnect (host : string) (port : Z) (username password : string)
| SftpStat (path : string)
| SftpRead (path : string) (offset size : Z)
| LocalExists (path : string)
| LocalGetSize (path : string)
| LocalRead (path : string) (offset : Z)
| RconCommand (command : string)
| DiscordClose
| Sleep (seconds : Z).

(** An open SFTP or SSH session; the program only tests it against [None]. *)
Inductive Handle : Type := Session.

Record State : Type := mkState {
  (* module globals *)
  last_online : gset string;
  log_file_position : Z;
  sftp_client : option Handle;
  ssh_client : option Handle;
  (* locals that are assigned inside a [try] and read after it *)
  consecutive_errors : Z;          (* of [poll_loop] *)
  death_messages : list string;    (* of [check_log_for_deaths] *)
  (* owned by the process *)
  position_file : option string;   (* contents of ".log_position", if any *)
  client_closed : bool;            (* the Discord client *)
  (* what an observer sees, oldest first *)
  log : list (Level * string);
  sent : list string;              (* every [channel.send] attempted *)
  trace : list IOAction
}.

Inductive Outcome (A : Type) : Type :=
| Ok (a : A)
| Raise (e : exn).
Arguments Ok {A} a.
Arguments Raise {A} e.

Definition M (A : Type) : Type := State -> Outcome A * State.

Definition ret {A} (a : A) : M A := fun st => (Ok a, st).

Definition bind {A B} (m : M A) (f : A -> M B) : M B :=
  fun st =>
    match m st with
    | (Ok a, st') => f a st'
    | (Raise e, st') => (Raise e, st')
    end.

Definition raise {A} (e : exn) : M A := fun st => (Raise e, st).

(** [try: body  except Exception as e: handler(e)] *)
Definition try_except {A} (body : M A) (handler : exn -> M A) : M A :=
  fun st =>
    match body st with
    | (Ok a, st') => (Ok a, st')
    | (Raise e, st') => handler e st'
    end.

(** [try: body  except FileNotFoundError: handler] *)
Definition try_except_FileNotFoundError {A} (body : M A) (handler : M A) : M A :=
  fun st =>
    match body st with
    | (Ok a, st') => (Ok a, st')
    | (Raise e, st') =>
        if is_FileNotFoundError e then handler st' else (Raise e, st')
    end.

Declare Scope py_scope.
Delimit Scope py_scope with py.
Notation "x <- m ;; k" := (bind m (fun x => k))
  (at level 100, m at next level, right associativity) : py_scope.
Notation "m ;; k" := (bind m (fun _ => k))
  (at level 100, right associativity) : py_scope.
Local Open Scope py_scope.

Definition get {A} (proj : State -> A) : M A := fun st => (Ok (proj st), st).
Definition modify (f : State -> State) : M unit := fun st => (Ok tt, f st).

(** [for x in l: body(x)] *)
Fixpoint for_each {A} (l : list A) (body : A -> M unit) : M unit :=
  match l with
  | [] => ret tt
  | x :: l' => body x ;; for_each l' body
  end.

(** Field updates *)
Definition set_last_online (v : gset string) (st : State) : State :=
  mkState v (log_file_position st) (sftp_client st) (ssh_client st)
    (consecutive_errors st) (death_messages st) (position_file st)
    (client_closed st) (log st) (sent st) (trace st).
Definition set_log_file_position (v : Z) (st : State) : State :=
  mkState (last_online st) v (sftp_client st) (ssh_client st)
    (consecutive_errors st) (death_messages st) (position_file st)
    (client_closed st) (log st) (sent st) (trace st).
Definition set_sessions (sftp ssh : option Handle) (st : State) : State :=
  mkState (last_online st) (log_file_position st) sftp ssh
    (consecutive_errors st) (death_messages st) (position_file st)
    (client_closed st) (log st) (sent st) (trace st).
Definition set_consecutive_errors (v : Z) (st : State) : State :=
  mkState (last_online st) (log_file_position st) (sftp_client st) (ssh_client st)
    v (death_messages st) (position_file st)
    (client_closed st) (log st) (sent st) (trace st).
Definition set_death_messages (v : list string) (st : State) : State :=
  mkState (last_online st) (log_file_position st) (sftp_client st) (ssh_client st)
    (consecutive_errors st) v (position_file st)
    (client_closed st) (log st) (sent st) (trace st).
Definition set_position_file (v : option string) (st : State) : State :=
  mkState (last_online st) (log_file_position st) (sftp_client st) (ssh_client st)
    (consecutive_errors st) (death_messages st) v
    (client_closed st) (log st) (sent st) (trace st).
Definition set_client_closed (v : bool) (st : State) : State :=
  mkState (last_online st) (log_file_position st) (sftp_client st) (ssh_client st)
    (consecutive_errors st) (death_messages st) (position_file st)
    v (log st) (sent st) (trace st).
Definition add_log (lvl : Level) (msg : string) (st : State) : State :=
  mkState (last_online st) (log_file_position st) (sftp_client st) (ssh_client st)
    (consecutive_errors st) (death_messages st) (position_file st)
    (client_closed st) (log st ++ [(lvl, msg)]) (sent st) (trace st).
Definition add_sent (msg : string) (st : State) : State :=
  mkState (last_online st) (log_file_position st) (sftp_client st) (ssh_client st)
    (consecutive_errors st) (death_messages st) (position_file st)
    (client_closed st) (log st) (sent st ++ [msg]) (trace st).
Definition add_trace (a : IOAction) (st : State) : State :=
  mkState (last_online st) (log_file_position st) (sftp_client st) (ssh_client st)
    (consecutive_errors st) (death_messages st) (position_file st)
    (client_closed st) (log st) (sent st) (trace st ++ [a]).

(** [logger.info], [logger.warning], [logger.error] *)
Definition logger (lvl : Level) (msg : string) : M unit := modify (add_log lvl msg).

(** An action of the environment: it is recorded, then succeeds or raises. *)
Definition io {A} (a : IOAction) (result : Outcome A) : M A :=
  fun st => (result, add_trace a st).

(** A file as the environment shows it during one call. *)
Inductive FileView : Type :=
| Missing
| Unreachable (e : exn)            (* it exists but asking for it fails *)
| Present (content : string).

(** The environment of one call of [check_log_for_deaths].  An [option exn]
    is [None] when the operation succeeds.  A log file is seen as it is at
    the start of the call: its size and its bytes do not change while the
    call runs. *)
Record LogWorld : Type := {
  position_read_error : option exn;      (* reading ".log_position" *)
  position_write_error : option exn;     (* opening it for writing *)
  position_flush_error : option exn;     (* writing to it and closing it *)
  sftp_probe_error : option exn;         (* [sftp_client.stat('.')] *)
  sftp_connect_error : option exn;       (* [connect] and [open_sftp] *)
  remote_log : FileView;                 (* the file at [SFTP_LOG_PATH] *)
  remote_read_error : option exn;        (* [open], [seek], [read] *)
  remote_close_error : option exn;       (* leaving the [with] block *)
  local_log : FileView;                  (* the file at [LOG_FILE_PATH] *)
  local_read_error : option exn;         (* [open], [seek], [readlines], [tell] *)
  local_close_error : option exn
}.

(** The environment of one iteration of the polling loop. *)
Record TickWorld : Type := {
  shutdown_requested : bool;             (* the client was closed from outside *)
  rcon_reply : Outcome string;           (* connect, [command("list")], disconnect *)
  send_error : string -> option exn;     (* [channel.send(message)] *)
  log_world : LogWorld;
  sleep_error : option exn               (* [asyncio.sleep] after the iteration *)
}.

(** The environment of the start of [poll_loop]. *)
Record StartWorld : Type := {
  channel : option string;               (* name of the channel, if it is found *)
  first_reply : Outcome string
}.

Definition outcome_of (err : option exn) : Outcome unit :=
  match err with
  | None => Ok tt
  | Some e => Raise e
  end.

Definition file_size_of (content : string) : Z := Z.of_nat (String.length content).

(** [bytes.decode('utf-8', errors='ignore')], with the text held in UTF-8:
    the well-formed sequences are kept, every other byte is left out. *)
Definition byte_in (lo hi : nat) (c : ascii) : bool :=
  let n := nat_of_ascii c in (lo <=? n)%nat && (n <=? hi)%nat.

(** The length of the well-formed UTF-8 sequence at the head of [s]; 0 when
    there is none. *)
Definition utf8_head (s : string) : nat :=
  match s with
  | EmptyString => 0
  | String a r =>
      if byte_in 0 127 a then 1
      else if byte_in 194 223 a then
        match r with
        | String b _ => if byte_in 128 191 b then 2 else 0
        | _ => 0
        end
      else if byte_in 224 239 a then
        match r with
        | String b (String c _) =>
            if (if byte_in 224 224 a then byte_in 160 191 b
                else if byte_in 237 237 a then byte_in 128 159 b
                else byte_in 128 191 b)
               && byte_in 128 191 c
            then 3 else 0
        | _ => 0
        end
      else if byte_in 240 244 a then
        match r with
        | String b (String c (String d _)) =>
            if (if byte_in 240 240 a then byte_in 144 191 b
                else if byte_in 244 244 a then byte_in 128 143 b
                else byte_in 128 191 b)
               && byte_in 128 191 c && byte_in 128 191 d
            then 4 else 0
        | _ => 0
        end
      else 0
  end.

(** [keep] is the number of bytes still owed to the sequence being copied. *)
Fixpoint decode_from (keep : nat) (s : string) : string :=
  match s with
  | EmptyString => EmptyString
  | String a r =>
      match keep with
      | S k => String a (decode_from k r)
      | O =>
          match utf8_head s with
          | O => decode_from 0 r
          | S k => String a (decode_from k r)
          end
      end
  end.

Definition decode_ignore (s : string) : string := decode_from 0 s.

(** Bytes [offset .. offset + size) of a file. *)
Definition file_bytes (content : string) (offset size : Z) : string :=
  PyStr.take (Z.to_nat size) (PyStr.drop (Z.to_nat offset) content).

(* ===================================================================== *)
(** ** The persisted cursor *)
(* ===================================================================== *)

(** [f.read().strip()] of the position file, which is opened in text mode. *)
Definition position_text (content : string) : string :=
  PyStr.strip (PyStr.translate_newlines content).

Definition load_log_position (w : LogWorld) : M Z :=
  try_except
    (file <- get position_file ;;
     match file with
     | Some content =>
         io ReadPositionFile (outcome_of (position_read_error w)) ;;
         match PyInt.py_int (position_text content) with
         | Some n => ret n
         | None => raise (int_error (position_text content))
         end
     | None => ret 0
     end)
    (fun e =>
       logger WARNING ("[WARNING] Could not load log position: " +:+ str_exn e) ;;
       ret 0).

(** [open(LOG_POSITION_FILE, 'w')] empties the file before anything is
    written: when the write or the close fails, the file is left empty. *)
Definition save_log_position (w : LogWorld) (position : Z) : M unit :=
  try_except
    (io (WritePositionFile (PyInt.py_str position))
        (outcome_of (position_write_error w)) ;;
     modify (set_position_file (Some EmptyString)) ;;
     (fun st => (outcome_of (position_flush_error w), st)) ;;
     modify (set_position_file (Some (PyInt.py_str position))))
    (fun e => logger ERROR ("[ERROR] Could not save log position: " +:+ str_exn e)).

(* ===================================================================== *)
(** ** The file-transfer session ([get_sftp_connection]) *)
(* ===================================================================== *)

Definition connect_sftp (cfg : Config) (w : LogWorld) : M (option Handle) :=
  try_except
    (modify (set_sessions None (Some Session)) ;;
     port <- match PyInt.py_int (SFTP_PORT cfg) with
             | Some p => ret p
             | None => raise (int_error (SFTP_PORT cfg))
             end ;;
     io (SftpConnect (SFTP_HOST cfg) port (SFTP_USERNAME cfg) (SFTP_PASSWORD cfg))
        (outcome_of (sftp_connect_error w)) ;;
     modify (set_sessions (Some Session) (Some Session)) ;;
     logger INFO ("[OK] Connected to SFTP server: " +:+ SFTP_HOST cfg +:+ ":"
                  +:+ SFTP_PORT cfg) ;;
     ret (Some Session))
    (fun e =>
       logger ERROR ("[ERROR] SFTP connection failed: " +:+ str_exn e) ;;
       modify (set_sessions None None) ;;
       ret None).

Definition get_sftp_connection (cfg : Config) (w : LogWorld) : M (option Handle) :=
  if negb (truthy (SFTP_HOST cfg)) || negb (truthy (SFTP_USERNAME cfg))
     || negb (truthy (SFTP_PASSWORD cfg))
  then ret None
  else
    existing <- get sftp_client ;;
    match existing with
    | Some h =>
        alive <- try_except
                   (io SftpProbe (outcome_of (sftp_probe_error w)) ;; ret true)
                   (fun _ =>
                      (* closing the dead session; failures are swallowed *)
                      modify (set_sessions None None) ;; ret false) ;;
        if alive then ret (Some h) else connect_sftp cfg w
    | None => connect_sftp cfg w
    end.

(* ===================================================================== *)
(** ** The command channel ([rcon_list_players]) *)
(* ===================================================================== *)

(** The names found in a reply that is known to contain the marker. *)
Definition names_of_reply (resp : string) : list string :=
  let parts := PyStr.split_once "online:" resp in
  if (length parts <? 2)%nat then []
  else
    let names_part := PyStr.strip (nth 1 parts EmptyString) in
    if PyStr.is_empty names_part then []
    else
      map PyStr.strip
        (List.filter (fun n => truthy (PyStr.strip n))
           (PyStr.split_char "," names_part)).

Definition rcon_list_players (cfg : Config) (reply : Outcome string)
  : M (gset string) :=
  try_except
    (port <- match PyInt.py_int (RCON_PORT cfg) with
             | Some p => ret p
             | None => raise (int_error (RCON_PORT cfg))
             end ;;
     resp <- io (RconCommand "list") reply ;;
     if negb (PyStr.contains "online:" resp) then
       logger WARNING ("Unexpected RCON response format: " +:+ resp) ;;
       ret ∅
     else ret (list_to_set (names_of_reply resp)))
    (fun e =>
       logger ERROR ("RCON error: " +:+ str_exn e) ;;
       raise e).

(* ===================================================================== *)
(** ** The log tailer ([check_log_for_deaths]) *)
(* ===================================================================== *)

Definition rotation_check (file_size : Z) : M unit :=
  pos <- get log_file_position ;;
  if pos >? file_size then
    logger INFO "[INFO] Log file rotated, resetting position" ;;
    modify (set_log_file_position 0)
  else ret tt.

(** The remote branch of the [try] block.  [Some l] is an early [return l];
    [None] falls through to [return death_messages]. *)
Definition tail_remote (cfg : Config) (w : LogWorld)
  : M (option (list string)) :=
  sftp <- get_sftp_connection cfg w ;;
  match sftp with
  | None => ret (Some [])
  | Some _ =>
      try_except_FileNotFoundError
        (content <- io (SftpStat (SFTP_LOG_PATH cfg))
                       match remote_log w with
                       | Present c => Ok c
                       | Missing => Raise (FileNotFoundError "No such file")
                       | Unreachable e => Raise e
                       end ;;
         let file_size := file_size_of content in
         rotation_check file_size ;;
         pos <- get log_file_position ;;
         if pos <? file_size then
           new_content <-
             io (SftpRead (SFTP_LOG_PATH cfg) pos (file_size - pos))
                match remote_read_error w with
                | Some e => Raise e
                | None =>
                    if pos <? 0 then Raise (OSError "negative offset")
                    else Ok (file_bytes content pos (file_size - pos))
                end ;;
           modify (set_log_file_position file_size) ;;
           save_log_position w file_size ;;
           let new_lines := PyStr.split_char PyStr.nl (decode_ignore new_content) in
           modify (set_death_messages (parse_death_messages new_lines)) ;;
           (fun st => (outcome_of (remote_close_error w), st)) ;;
           ret None
         else ret None)
        (logger WARNING ("[WARNING] SFTP log file not found: " +:+ SFTP_LOG_PATH cfg) ;;
         ret (Some []))
  end.

(** The local branch of the [try] block. *)
Definition tail_local (cfg : Config) (w : LogWorld)
  : M (option (list string)) :=
  present <- io (LocalExists (LOG_FILE_PATH cfg))
                (Ok match local_log w with Missing => false | _ => true end) ;;
  if negb present then ret (Some [])
  else
    content <- io (LocalGetSize (LOG_FILE_PATH cfg))
                  match local_log w with
                  | Present c => Ok c
                  | Missing => Raise (FileNotFoundError "No such file")
                  | Unreachable e => Raise e
                  end ;;
    let file_size := file_size_of content in
    rotation_check file_size ;;
    pos <- get log_file_position ;;
    new_lines <-
      io (LocalRead (LOG_FILE_PATH cfg) pos)
         match local_read_error w with
         | Some e => Raise e
         | None =>
             if pos <? 0 then Raise (ValueError "negative seek position")
             else Ok (PyStr.readlines
                        (decode_ignore (PyStr.drop (Z.to_nat pos) content)))
         end ;;
    (* [f.tell()] after reading to the end of the file *)
    modify (set_log_file_position (Z.max pos file_size)) ;;
    save_log_position w (Z.max pos file_size) ;;
    modify (set_death_messages (parse_death_messages new_lines)) ;;
    (fun st => (outcome_of (local_close_error w), st)) ;;
    ret None.

Definition use_sftp (cfg : Config) : bool :=
  truthy (SFTP_HOST cfg) && truthy (SFTP_USERNAME cfg) && truthy (SFTP_LOG_PATH cfg).

(** The block "Load saved position on first run". *)
Definition resume_position (w : LogWorld) : M unit :=
  pos <- get log_file_position ;;
  if pos =? 0 then
    saved <- load_log_position w ;;
    modify (set_log_file_position saved) ;;
    if saved >? 0 then
      logger INFO ("[INFO] Resumed from saved log position: " +:+ PyInt.py_str saved)
    else ret tt
  else ret tt.

(** The rest of the function, from the choice of the source on. *)
Definition tail_log (cfg : Config) (w : LogWorld) : M (list string) :=
  if negb (use_sftp cfg) && negb (truthy (LOG_FILE_PATH cfg)) then ret []
  else
    early <- try_except
               (if use_sftp cfg then tail_remote cfg w else tail_local cfg w)
               (fun e =>
                  logger ERROR ("[ERROR] Error reading log file: " +:+ str_exn e) ;;
                  ret None) ;;
    match early with
    | Some l => ret l
    | None => get death_messages
    end.

Definition check_log_for_deaths (cfg : Config) (w : LogWorld)
  : M (list string) :=
  modify (set_death_messages []) ;;
  resume_position w ;;
  tail_log cfg w.

(* ===================================================================== *)
(** ** The reconciliation loop ([poll_loop]) *)
(* ===================================================================== *)

(** [sorted(s)] for a set of strings: ascending code-point order. *)
Definition py_sorted (s : gset string) : list string :=
  merge_sort String.le (elements s).

(** The string "\n" *)
Definition NL : string := String PyStr.nl "".

(** [sep.join(l)] *)
Fixpoint join (sep : string) (l : list string) : string :=
  match l with
  | [] => ""
  | [x] => x
  | x :: l' => x +:+ sep +:+ join sep l'
  end.

Definition channel_send (w : TickWorld) (message : string) : M unit :=
  fun st => (outcome_of (send_error w message), add_sent message st).

Definition client_close : M unit :=
  io DiscordClose (Ok tt) ;; modify (set_client_closed true).

Definition join_message (player : string) : string :=
  "**" +:+ player +:+ "** joined the server".
Definition leave_message (player : string) : string :=
  "**" +:+ player +:+ "** left the server".
Definition death_notice (death_msg : string) : string :=
  "[DEATH] " +:+ death_msg.

Definition max_consecutive_errors : Z := 5.

(** The body of the [try] block of one iteration. *)
Definition tick_body (cfg : Config) (w : TickWorld) : M unit :=
  current <- rcon_list_players cfg (rcon_reply w) ;;
  modify (set_consecutive_errors 0) ;;
  previous <- get last_online ;;
  let joined := current ∖ previous in
  for_each (py_sorted joined) (fun player =>
    try_except
      (channel_send w (join_message player) ;;
       logger INFO ("[JOIN] " +:+ player +:+ " joined the server"))
      (fun discord_error =>
         logger ERROR ("Failed to send Discord message: " +:+ str_exn discord_error))) ;;
  (if NOTIFY_LOGOUT cfg then
     let left := previous ∖ current in
     for_each (py_sorted left) (fun player =>
       try_except
         (channel_send w (leave_message player) ;;
          logger INFO ("[LEAVE] " +:+ player +:+ " left the server"))
         (fun discord_error =>
            logger ERROR ("Failed to send Discord message: " +:+ str_exn discord_error)))
   else ret tt) ;;
  found <- check_log_for_deaths cfg (log_world w) ;;
  for_each found (fun death_msg =>
    try_except
      (channel_send w (death_notice death_msg) ;;
       logger INFO ("[DEATH] " +:+ death_msg))
      (fun discord_error =>
         logger ERROR ("Failed to send Discord death message: "
                       +:+ str_exn discord_error))) ;;
  modify (set_last_online current).

(** One iteration, without the final sleep.  The result tells whether the
    loop goes on ([true]) or the coroutine has returned ([false]). *)
Definition tick (cfg : Config) (w : TickWorld) : M bool :=
  try_except
    (tick_body cfg w ;; ret true)
    (fun e =>
       n <- get consecutive_errors ;;
       modify (set_consecutive_errors (n + 1)) ;;
       logger ERROR ("Poll error (" +:+ PyInt.py_str (n + 1) +:+ "/"
                     +:+ PyInt.py_str max_consecutive_errors +:+ "): " +:+ str_exn e) ;;
       if n + 1 >=? max_consecutive_errors then
         logger ERROR ("[ERROR] Too many consecutive errors ("
                       +:+ PyInt.py_str max_consecutive_errors +:+ "). Shutting down.") ;;
         logger ERROR "Please check your RCON configuration and server status." ;;
         client_close ;;
         ret false
       else ret true).

Inductive LoopStatus : Type :=
| Running        (* the observed iterations are over, the loop is not *)
| Stopped.       (* the coroutine has returned *)

(** [await asyncio.sleep(int(POLL_SECONDS))], the last statement of an
    iteration, outside its [try]: what it raises leaves the coroutine. *)
Definition sleep (cfg : Config) (w : TickWorld) : M unit :=
  seconds <- match PyInt.py_int (POLL_SECONDS cfg) with
             | Some n => ret n
             | None => raise (int_error (POLL_SECONDS cfg))
             end ;;
  io (Sleep seconds) (outcome_of (sleep_error w)).

(** [while not client.is_closed(): ...] over the environments of the
    successive iterations.  The iterations are observed up to the end of the
    [try] statement of the last one: its sleep belongs to what follows. *)
Fixpoint run_loop (cfg : Config) (ws : list TickWorld) : M LoopStatus :=
  match ws with
  | [] => ret Running
  | w :: ws' =>
      closed <- get client_closed ;;
      if closed || shutdown_requested w then ret Stopped
      else
        continue <- tick cfg w ;;
        if continue then
          match ws' with
          | [] => ret Running
          | _ :: _ => sleep cfg w ;; run_loop cfg ws'
          end
        else ret Stopped
  end.

Definition poll_loop (cfg : Config) (sw : StartWorld) (ws : list TickWorld)
  : M LoopStatus :=
  channel_id <- match CHANNEL_ID cfg with
                | Some s =>
                    match PyInt.py_int s with
                    | Some n => ret n
                    | None => raise (int_error s)
                    end
                | None => raise int_none_error
                end ;;
  match channel sw with
  | None =>
      logger ERROR ("[ERROR] Could not find Discord channel with ID: "
                    +:+ default "" (CHANNEL_ID cfg)) ;;
      logger ERROR "Please verify the channel ID and bot permissions." ;;
      client_close ;;
      ret Stopped
  | Some name =>
      logger INFO ("[OK] Connected to Discord channel: #" +:+ name) ;;
      logger INFO ("[INFO] Polling every " +:+ POLL_SECONDS cfg +:+ " seconds") ;;
      logger INFO ("[INFO] Logout notifications: "
                   +:+ (if NOTIFY_LOGOUT cfg then "ENABLED" else "DISABLED")) ;;
      try_except
        (players <- rcon_list_players cfg (first_reply sw) ;;
         modify (set_last_online players) ;;
         if bool_decide (players = ∅) then
           logger INFO "[INFO] No players currently online"
         else
           logger INFO ("[INFO] Currently online: " +:+ join ", " (py_sorted players)))
        (fun e =>
           logger WARNING ("[WARNING] Could not query initial player list: "
                           +:+ str_exn e) ;;
           logger INFO "Will retry on next poll..." ;;
           modify (set_last_online ∅)) ;;
      logger INFO ("[OK] Bot is now monitoring the Minecraft server!" +:+ NL) ;;
      modify (set_consecutive_errors 0) ;;
      run_loop cfg ws
  end.

(* ===================================================================== *)
(** ** Configuration validation and start-up *)
(* ===================================================================== *)

(** The checks of [validate_configuration], one per paragraph of the source;
    each takes the list [errors] built so far and returns it, extended or
    not. *)
Definition check_token (cfg : Config) (errors : list string) : list string :=
  if negb (truthy_opt (TOKEN cfg)) then errors ++ ["DISCORD_TOKEN is not set"]
  else errors.

Definition check_channel (cfg : Config) (errors : list string) : list string :=
  if negb (truthy_opt (CHANNEL_ID cfg)) then
    errors ++ ["DISCORD_CHANNEL_ID is not set"]
  else
    match PyInt.py_int (default "" (CHANNEL_ID cfg)) with
    | Some _ => errors
    | None => errors ++ ["DISCORD_CHANNEL_ID must be a valid integer"]
    end.

Definition check_host (cfg : Config) (errors : list string) : list string :=
  if negb (truthy_opt (RCON_HOST cfg)) then errors ++ ["RCON_HOST is not set"]
  else errors.

Definition check_password (cfg : Config) (errors : list string) : list string :=
  if negb (truthy_opt (RCON_PASSWORD cfg)) then
    errors ++ ["RCON_PASSWORD is not set"]
  else errors.

Definition check_port (cfg : Config) (errors : list string) : list string :=
  match PyInt.py_int (RCON_PORT cfg) with
  | Some port =>
      if (port <? 1) || (port >? 65535) then
        errors ++ ["RCON_PORT must be between 1 and 65535"]
      else errors
  | None => errors ++ ["RCON_PORT must be a valid integer"]
  end.

Definition check_poll (cfg : Config) (errors : list string) : list string :=
  match PyInt.py_int (POLL_SECONDS cfg) with
  | Some poll =>
      if poll <? 1 then errors ++ ["POLL_SECONDS must be at least 1"]
      else errors
  | None => errors ++ ["POLL_SECONDS must be a valid integer"]
  end.

(** The list [errors] at the end of the checks. *)
Definition config_errors (cfg : Config) : list string :=
  let errors := [] in
  let errors := check_token cfg errors in
  let errors := check_channel cfg errors in
  let errors := check_host cfg errors in
  let errors := check_password cfg errors in
  let errors := check_port cfg errors in
  let errors := check_poll cfg errors in
  errors.

Definition validate_configuration (cfg : Config) : M bool :=
  let errors := config_errors cfg in
  (match PyInt.py_int (POLL_SECONDS cfg) with
   | Some poll =>
       if (1 <=? poll) && (poll <? 3) then
         logger WARNING
           "POLL_SECONDS is very low (< 3). Consider increasing to reduce server load."
       else ret tt
   | None => ret tt
   end) ;;
  match errors with
  | _ :: _ =>
      logger ERROR "Configuration validation failed:" ;;
      for_each errors (fun error => logger ERROR ("  [ERROR] " +:+ error)) ;;
      logger ERROR
        (NL +:+ "Please check your .env file and ensure all required variables are set.") ;;
      ret false
  | [] =>
      logger INFO "[OK] Configuration validation passed" ;;
      ret true
  end.

(** How the [__main__] block ends or goes on. *)
Inductive Startup : Type :=
| Exit (code : Z)        (* [sys.exit(code)] before any connection is made *)
| Start.                 (* [asyncio.run(main())] is reached *)

(** ["=" * 70] *)
Definition banner : string := String.concat "" (repeat "=" 70).

Definition startup (cfg : Config) : M Startup :=
  logger INFO banner ;;
  logger INFO "Minecraft Discord Notification Bot" ;;
  logger INFO banner ;;
  valid <- validate_configuration cfg ;;
  if negb valid then
    logger ERROR (NL +:+ "[ERROR] Bot startup aborted due to configuration errors.") ;;
    ret (Exit 1)
  else ret Start.


(* ===================================================================== *)
(** ** Reference definitions, written after the specification *)
(* ===================================================================== *)

(** Everything after the first occurrence of [marker], if there is one. *)
Fixpoint after_marker (marker s : string) : option string :=
  if PyStr.startswith marker s then Some (PyStr.drop (String.length marker) s)
  else match s with
       | EmptyString => None
       | String _ s' => after_marker marker s'
       end.

(** "Everything after that marker, split on commas, trimmed of whitespace,
    empty tokens discarded, becomes the set"; the empty set when the marker
    is absent. *)
Definition spec_participants (resp : string) : gset string :=
  match after_marker "online:" resp with
  | Some rest =>
      list_to_set
        (List.filter truthy (map PyStr.strip (PyStr.split_char "," rest)))
  | None => ∅
  end.

(** The requirements on the configuration, in the order they are checked. *)
Inductive Requirement : Type :=
| TokenSet | ChannelSet | ChannelInteger | HostSet | PasswordSet
| PortInteger | PortInRange | PollInteger | PollAtLeastOne.

Definition all_requirements : list Requirement :=
  [TokenSet; ChannelSet; ChannelInteger; HostSet; PasswordSet;
   PortInteger; PortInRange; PollInteger; PollAtLeastOne].

Definition is_set (o : option string) : Prop := ∃ s, o = Some s ∧ s ≠ "".

Definition is_integer (s : string) : Prop := ∃ n, PyInt.py_int s = Some n.

(** A required setting is missing or invalid. *)
Definition violated (cfg : Config) (r : Requirement) : Prop :=
  match r with
  | TokenSet => ¬ is_set (TOKEN cfg)
  | ChannelSet => ¬ is_set (CHANNEL_ID cfg)
  | ChannelInteger =>
      ∃ s, CHANNEL_ID cfg = Some s ∧ s ≠ "" ∧ ¬ is_integer s
  | HostSet => ¬ is_set (RCON_HOST cfg)
  | PasswordSet => ¬ is_set (RCON_PASSWORD cfg)
  | PortInteger => ¬ is_integer (RCON_PORT cfg)
  | PortInRange =>
      ∃ port, PyInt.py_int (RCON_PORT cfg) = Some port ∧ ¬ (1 <= port <= 65535)
  | PollInteger => ¬ is_integer (POLL_SECONDS cfg)
  | PollAtLeastOne =>
      ∃ poll, PyInt.py_int (POLL_SECONDS cfg) = Some poll ∧ ¬ (1 <= poll)
  end.

(** The decision behind [violated]. *)
Definition violatedb (cfg : Config) (r : Requirement) : bool :=
  match r with
  | TokenSet => negb (truthy_opt (TOKEN cfg))
  | ChannelSet => negb (truthy_opt (CHANNEL_ID cfg))
  | ChannelInteger =>
      truthy_opt (CHANNEL_ID cfg)
      && negb (bool_decide (is_Some (PyInt.py_int (default "" (CHANNEL_ID cfg)))))
  | HostSet => negb (truthy_opt (RCON_HOST cfg))
  | PasswordSet => negb (truthy_opt (RCON_PASSWORD cfg))
  | PortInteger => negb (bool_decide (is_Some (PyInt.py_int (RCON_PORT cfg))))
  | PortInRange =>
      match PyInt.py_int (RCON_PORT cfg) with
      | Some port => (port <? 1) || (port >? 65535)
      | None => false
      end
  | PollInteger => negb (bool_decide (is_Some (PyInt.py_int (POLL_SECONDS cfg))))
  | PollAtLeastOne =>
      match PyInt.py_int (POLL_SECONDS cfg) with
      | Some poll => poll <? 1
      | None => false
      end
  end.

Definition violation_message (r : Requirement) : string :=
  match r with
  | TokenSet => "DISCORD_TOKEN is not set"
  | ChannelSet => "DISCORD_CHANNEL_ID is not set"
  | ChannelInteger => "DISCORD_CHANNEL_ID must be a valid integer"
  | HostSet => "RCON_HOST is not set"
  | PasswordSet => "RCON_PASSWORD is not set"
  | PortInteger => "RCON_PORT must be a valid integer"
  | PortInRange => "RCON_PORT must be between 1 and 65535"
  | PollInteger => "POLL_SECONDS must be a valid integer"
  | PollAtLeastOne => "POLL_SECONDS must be at least 1"
  end.

(** The value found in the position file: what [load_log_position] gives. *)
Definition saved_position (w : LogWorld) (st : State) : Z :=
  match position_file st with
  | None => 0
  | Some content =>
      match position_read_error w with
      | Some _ => 0
      | None => default 0 (PyInt.py_int (position_text content))
      end
  end.

(** The log source that the configuration selects. *)
Definition source (cfg : Config) (w : LogWorld) : FileView :=
  if use_sftp cfg then remote_log w else local_log w.


Definition is_local_action (a : IOAction) : bool :=
  match a with
  | LocalExists _ | LocalGetSize _ | LocalRead _ _ => true
  | _ => false
  end.

(* ===================================================================== *)
(** ** Notions used in the statements, and the inputs of the scenarios *)
(* ===================================================================== *)

(** The messages of the requirements among [rs] that [cfg] violates. *)
Definition violation_messages (cfg : Config) (rs : list Requirement) : list string :=
  map violation_message (List.filter (violatedb cfg) rs).

(** [total m]: the command [m] never raises. *)
Definition total {A} (m : M A) : Prop := ∀ st, ∃ a st', m st = (Ok a, st').

(** [steps R m]: whatever happens, [m] moves the state along [R]. *)
Definition steps {A} (R : State → State → Prop) (m : M A) : Prop :=
  ∀ st, R st (snd (m st)).

(** The loop's own variables and the messages sent. *)
Definition same_loop_state (s s' : State) : Prop :=
  last_online s' = last_online s
  ∧ consecutive_errors s' = consecutive_errors s
  ∧ client_closed s' = client_closed s
  ∧ sent s' = sent s.

(** The loop's own variables are kept, and [msgs] are sent. *)
Definition sends (msgs : list string) (s s' : State) : Prop :=
  last_online s' = last_online s
  ∧ consecutive_errors s' = consecutive_errors s
  ∧ client_closed s' = client_closed s
  ∧ sent s' = sent s ++ msgs.



(** What the sleep that ends an iteration raises, if it raises. *)
Definition sleep_failure (cfg : Config) (w : TickWorld) : option exn :=
  match PyInt.py_int (POLL_SECONDS cfg) with
  | None => Some (int_error (POLL_SECONDS cfg))
  | Some _ => sleep_error w
  end.


(** [returns P m]: a value returned by [m] satisfies [P]. *)
Definition returns {A} (P : A → Prop) (m : M A) : Prop :=
  ∀ st, match fst (m st) with Ok a => P a | Raise _ => True end.

(** An early [return] of the [try] block always returns the empty list. *)
Definition early_empty (r : option (list string)) : Prop :=
  match r with
  | Some l => l = []
  | None => True
  end.

Definition not_local (a : IOAction) : Prop := is_local_action a = false.

(** No file-transfer session can be had: the secret is missing, or there is
    no live session and connecting fails. *)
Definition no_session (cfg : Config) (w : LogWorld) (st : State) : Prop :=
  truthy (SFTP_PASSWORD cfg) = false
  ∨ ((sftp_client st = None ∨ sftp_probe_error w ≠ None)
     ∧ (PyInt.py_int (SFTP_PORT cfg) = None ∨ sftp_connect_error w ≠ None)).

(** A file-transfer session can be had: the secret is set, and the live
    session answers or a new one can be opened. *)
Definition session_available (cfg : Config) (w : LogWorld) (st : State) : Prop :=
  truthy (SFTP_PASSWORD cfg) = true
  ∧ ((sftp_client st ≠ None ∧ sftp_probe_error w = None)
     ∨ (is_integer (SFTP_PORT cfg) ∧ sftp_connect_error w = None)).

Definition read_fails (cfg : Config) (w : LogWorld) : Prop :=
  if use_sftp cfg then remote_read_error w ≠ None else local_read_error w ≠ None.

(** The situations in which a call has nothing to deliver. *)
Definition settled (cfg : Config) (w : LogWorld) (st : State) : Prop :=
  (use_sftp cfg = false ∧ truthy (LOG_FILE_PATH cfg) = false)
  ∨ (use_sftp cfg = true ∧ no_session cfg w st)
  ∨ (∀ c, source cfg w ≠ Present c)
  ∨ read_fails cfg w
  ∨ (∃ c, source cfg w = Present c
          ∧ (file_size_of c = 0
             ∨ log_file_position st = file_size_of c
             ∨ log_file_position st < 0)).



(** A configuration that tails the log over SFTP. *)
Definition example_cfg : Config :=
  Build_Config (Some "token") (Some "123456") (Some "mc.example.org") "25575"
    (Some "rcon-secret") "5" true "" "sftp.example.org" "22" "steve" "secret"
    "/logs/latest.log".

(** The same, with a local log file also configured and without the secret. *)
Definition example_cfg_no_secret : Config :=
  Build_Config (Some "token") (Some "123456") (Some "mc.example.org") "25575"
    (Some "rcon-secret") "5" true "logs/latest.log" "sftp.example.org" "22"
    "steve" "" "/logs/latest.log".

(** A configuration that tails a local file. *)
Definition example_cfg_local : Config :=
  Build_Config (Some "token") (Some "123456") (Some "mc.example.org") "25575"
    (Some "rcon-secret") "5" true "logs/latest.log" "" "22" "" "" "".

Definition initial_state : State :=
  mkState ∅ 0 None None 0 [] None false [] [] [].

(** A process that has read 40 bytes of the log and saved that position. *)
Definition tailing_state : State :=
  mkState {[ "Alice" ]} 40 (Some Session) (Some Session) 0 [] (Some "40")
    false [] [] [].

(** An environment without faults in which both logs hold [content]. *)
Definition calm_world (content : string) : LogWorld :=
  Build_LogWorld None None None None None (Present content) None None
    (Present content) None None.

Definition death_line : string :=
  "[12:00:00] [Server thread/INFO]: Steve fell from a high place" +:+ NL.

Definition good_tick : TickWorld :=
  Build_TickWorld false
    (Ok "There are 2 of a max of 20 players online: Bob, Alice")
    (λ _, None) (calm_world "") None.



(** The state after the log was rotated to an empty file. *)
Definition rotated_state : State :=
  snd (check_log_for_deaths example_cfg (calm_world "") tailing_state).

(** ** Notions used in the further properties *)

(** [s.lower()] *)
Fixpoint lower_str (s : string) : string :=
  match s with
  | EmptyString => EmptyString
  | String c s' => String (PyStr.lower c) (lower_str s')
  end.

(** Every character of [s] satisfies [p]. *)
Fixpoint all_chars (p : ascii -> bool) (s : string) : bool :=
  match s with
  | EmptyString => true
  | String c s' => if p c then all_chars p s' else false
  end.

Definition not_newline (c : ascii) : bool := negb (Ascii.eqb c PyStr.nl).

(** The iteration that [Re.accepts] runs for [r*]; [step] is the matcher of
    [r]. *)
Definition star_iter (step : string -> (string -> bool) -> bool)
    (k : string -> bool) : nat -> string -> bool :=
  fix iter (fuel : nat) (s0 : string) {struct fuel} : bool :=
    if k s0 then true
    else
      match fuel with
      | O => false
      | S fuel' =>
          step s0
            (fun s' =>
               if (String.length s' <? String.length s0)%nat
               then iter fuel' s' else false)
      end.

(** The cursor that a call works with: the saved position when the cursor is
    0 at entry. *)
Definition effective_cursor (w : LogWorld) (st : State) : Z :=
  if log_file_position st =? 0 then saved_position w st else log_file_position st.

(** Where a read starts: at the cursor, or at 0 when the cursor lies beyond
    the end of the file. *)
Definition start_offset (cursor size : Z) : Z :=
  if cursor >? size then 0 else cursor.

(** The records in the bytes of [content] from [start] on, as the remote
    branch and as the local branch cut them into lines. *)
Definition remote_events (content : string) (start : Z) : list string :=
  parse_death_messages
    (PyStr.split_char PyStr.nl
       (decode_ignore (file_bytes content start (file_size_of content - start)))).

Definition local_events (content : string) (start : Z) : list string :=
  parse_death_messages
    (PyStr.readlines (decode_ignore (PyStr.drop (Z.to_nat start) content))).

(** The number of digits of [str(n)], and the integers that [int] reads back
    from their [str]. *)
Definition digits_of (n : Z) : Z := PyInt.count_digits (PyInt.py_str n).

Definition within_digit_limit (n : Z) : Prop := digits_of n <= PyInt.max_str_digits.

(** 7-bit text *)
Definition is_ascii (s : string) : Prop :=
  all_chars (fun c => (nat_of_ascii c <? 128)%nat) s = true.

(** The records in the bytes of a 7-bit [content] from [start] on, cut into
    lines as the remote and as the local branch do. *)
Definition remote_records (content : string) (start : Z) : list string :=
  parse_death_messages
    (PyStr.split_char PyStr.nl
       (file_bytes content start (file_size_of content - start))).

Definition local_records (content : string) (start : Z) : list string :=
  parse_death_messages (PyStr.readlines (PyStr.drop (Z.to_nat start) content)).

(** The settings that [int] reads are 7-bit text. *)
Definition numeric_settings_ascii (cfg : Config) : Prop :=
  is_ascii (RCON_PORT cfg)
  ∧ is_ascii (POLL_SECONDS cfg)
  ∧ ∀ s, CHANNEL_ID cfg = Some s → is_ascii s.

(** Nothing fails while the call reads its source: over SFTP a session can
    be had, and the read and the close succeed. *)
Definition reads_through (cfg : Config) (w : LogWorld) (st : State) : Prop :=
  if use_sftp cfg then
    session_available cfg w st
    ∧ remote_read_error w = None ∧ remote_close_error w = None
  else
    truthy (LOG_FILE_PATH cfg) = true
    ∧ local_read_error w = None ∧ local_close_error w = None.

(** The default port preceded by the separator FS, which [str.strip] trims
    and [int] does not accept. *)
Definition example_cfg_fs_port : Config :=
  Build_Config (Some "token") (Some "123456") (Some "mc.example.org")
    (String (ascii_of_nat 28) "25575")
    (Some "rcon-secret") "5" true "" "sftp.example.org" "22" "steve" "secret"
    "/logs/latest.log".

(** A channel id of 4301 digits. *)
Definition long_numeral : string := String.concat "" (repeat "1" 4301).

Definition example_cfg_long_id : Config :=
  Build_Config (Some "token") (Some long_numeral) (Some "mc.example.org") "25575"
    (Some "rcon-secret") "5" true "" "sftp.example.org" "22" "steve" "secret"
    "/logs/latest.log".

(** A polling interval of two seconds. *)
Definition example_cfg_fast : Config :=
  Build_Config (Some "token") (Some "123456") (Some "mc.example.org") "25575"
    (Some "rcon-secret") "2" true "" "sftp.example.org" "22" "steve" "secret"
    "/logs/latest.log".

(** A polling interval of 401 digits: validation accepts it, and
    [asyncio.sleep] cannot turn it into a float. *)
Definition long_interval : string := "1" +:+ String.concat "" (repeat "0" 400).

Definition example_cfg_long_interval : Config :=
  Build_Config (Some "token") (Some "123456") (Some "mc.example.org") "25575"
    (Some "rcon-secret") long_interval true "" "" "22" "" "" "".

Definition overflow_tick : TickWorld :=
  Build_TickWorld false
    (Ok "There are 2 of a max of 20 players online: Bob, Alice")
    (λ _, None) (calm_world "")
    (Some (OverflowError "int too large to convert to float")).

(** A polling interval that is not a number. *)
Definition example_cfg_no_interval : Config :=
  Build_Config (Some "token") (Some "123456") (Some "mc.example.org") "25575"
    (Some "rcon-secret") "abc" true "" "" "22" "" "" "".

(** A first call whose read fails, for the same bytes. *)
Definition failing_read_world : LogWorld :=
  Build_LogWorld None None None None None (Present death_line)
    (Some (OSError "timed out")) None Missing None None.

(** Both steps of writing the position file succeed. *)
Definition position_saved (w : LogWorld) : Prop :=
  position_write_error w = None ∧ position_flush_error w = None.

(** The position file does not hold a negative number, and the cursor is
    not negative. *)
Definition cursor_sound (st : State) : Prop :=
  0 <= log_file_position st
  ∧ ∀ content n,
      position_file st = Some content →
      PyInt.py_int (position_text content) = Some n → 0 <= n.

(** A step that keeps [cursor_sound]. *)
Definition keeps_cursor_sound (s s' : State) : Prop :=
  cursor_sound s → cursor_sound s'.





(** What a name of a participant looks like: not empty, no whitespace at
    either end, no comma. *)
Definition no_comma (c : ascii) : bool := negb (Ascii.eqb c ",").

Definition clean_name (x : string) : Prop :=
  x ≠ "" ∧ PyStr.strip x = x ∧ all_chars no_comma x = true.




(** The warning of [validate_configuration]. *)
Definition low_poll_warning : Level * string :=
  (WARNING,
   "POLL_SECONDS is very low (< 3). Consider increasing to reduce server load.").

(** The lines that the pattern of the extractor is written for: somewhere
    in the line a "[", a run without newline, "]: ", a word, a blank and a
    phrase of the vocabulary in any case. *)
Definition death_shape (line : string) : Prop :=
  ∃ pre x name phrase kw rest,
    line = pre +:+ "[" +:+ x +:+ "]: " +:+ name +:+ " " +:+ phrase +:+ rest
    ∧ all_chars not_newline x = true
    ∧ name ≠ ""
    ∧ all_chars PyStr.is_word name = true
    ∧ In kw death_keywords
    ∧ lower_str phrase = lower_str kw.

(** Lines 47 to 54 of the module: the password it ends up with, from the
    variable SFTP_PASSWORD ([raw], "" when unset) and the content of the
    file ".sftp_password" when there is one. *)
Definition sftp_password (raw : string) (file : option string) : string :=
  if truthy raw && negb (PyStr.contains "#" raw) then
    match file with
    | Some content => PyStr.strip (PyStr.translate_newlines content)
    | None => raw
    end
  else raw.

(* ===================================================================== *)
(** * Properties *)
(* ===================================================================== *)

(** ** Strings *)

Section StringFacts.
Import PyStr.

Lemma split_char_nonempty c s : split_char c s ≠ [].
Proof.
  destruct s as [|a s]; simpl; [discriminate|].
  destruct (Ascii.eqb a c); [discriminate|].
  destruct (split_char c s); discriminate.
Qed.

Lemma rstrip_cons c s :
  rstrip (String c s) =
  if is_empty (rstrip s) && is_space c then EmptyString else String c (rstrip s).
Proof. reflexivity. Qed.

Lemma rstrip_idemp s : rstrip (rstrip s) = rstrip s.
Proof.
  induction s as [|a s IH]; [reflexivity|].
  rewrite rstrip_cons.
  destruct (is_empty (rstrip s) && is_space a) eqn:E; [reflexivity|].
  rewrite rstrip_cons, IH, E. reflexivity.
Qed.

Lemma lstrip_rstrip s : lstrip (rstrip s) = rstrip (lstrip s).
Proof.
  induction s as [|a s IH]; [reflexivity|].
  rewrite rstrip_cons. simpl lstrip at 2.
  destruct (is_space a) eqn:Ha.
  - destruct (rstrip s) as [|b r] eqn:Hr; simpl.
    + rewrite <- IH. reflexivity.
    + rewrite Ha. rewrite <- IH. reflexivity.
  - rewrite andb_false_r. simpl. rewrite Ha.
    rewrite andb_false_r. reflexivity.
Qed.

Lemma strip_alt s : strip s = lstrip (rstrip s).
Proof. unfold strip. symmetry. apply lstrip_rstrip. Qed.

Lemma strip_lstrip s : strip (lstrip s) = strip s.
Proof.
  unfold strip. f_equal.
  induction s as [|a s IH]; [reflexivity|].
  simpl. destruct (is_space a) eqn:Ha; [exact IH|].
  simpl. rewrite Ha. reflexivity.
Qed.

Lemma strip_space_cons a s : is_space a = true → strip (String a s) = strip s.
Proof. intros Ha. unfold strip. simpl. rewrite Ha. reflexivity. Qed.

Lemma is_space_not_comma a : is_space a = true → Ascii.eqb a "," = false.
Proof.
  intros Ha. destruct (Ascii.eqb a ",") eqn:E; [|reflexivity].
  apply Ascii.eqb_eq in E. subst a. discriminate Ha.
Qed.

(** Stripping the left end before splitting changes no trimmed token. *)
Lemma split_lstrip s :
  map strip (split_char "," (lstrip s)) = map strip (split_char "," s).
Proof.
  induction s as [|a s IH]; [reflexivity|].
  simpl lstrip. destruct (is_space a) eqn:Ha; [|reflexivity].
  rewrite IH. simpl split_char. rewrite (is_space_not_comma _ Ha).
  destruct (split_char "," s) as [|h t] eqn:Hs.
  - exfalso. exact (split_char_nonempty _ _ Hs).
  - simpl. rewrite (strip_space_cons _ _ Ha). reflexivity.
Qed.

Lemma rstrip_empty_split s :
  rstrip s = EmptyString → split_char "," s = [s].
Proof.
  induction s as [|a s IH]; [reflexivity|].
  rewrite rstrip_cons.
  destruct (rstrip s) as [|b r] eqn:Hr; simpl.
  - destruct (is_space a) eqn:Ha; [|discriminate].
    intros _. rewrite (is_space_not_comma _ Ha), IH; reflexivity.
  - discriminate.
Qed.

(** Stripping the right end before splitting only strips the last token. *)
Lemma split_rstrip s :
  Forall2 (λ x y, rstrip x = rstrip y)
    (split_char "," (rstrip s)) (split_char "," s).
Proof.
  induction s as [|a s IH]; [repeat constructor|].
  rewrite rstrip_cons.
  destruct (is_empty (rstrip s) && is_space a) eqn:E.
  - apply andb_prop in E as [Hr Ha].
    destruct (rstrip s) eqn:Hs; [|discriminate].
    simpl. rewrite (is_space_not_comma _ Ha), (rstrip_empty_split _ Hs).
    constructor; [|constructor].
    rewrite rstrip_cons, Hs, Ha. reflexivity.
  - simpl. destruct (Ascii.eqb a ","); [constructor; [reflexivity|exact IH]|].
    destruct IH as [|h1 h2 t1 t2 Hh Ht]; constructor; auto.
    rewrite !rstrip_cons, Hh. reflexivity.
Qed.

Lemma split_strip s :
  map strip (split_char "," (strip s)) = map strip (split_char "," s).
Proof.
  rewrite <- (split_lstrip s). unfold strip at 2.
  generalize (split_rstrip (lstrip s)).
  generalize (split_char "," (rstrip (lstrip s))) (split_char "," (lstrip s)).
  induction 1 as [|x y l1 l2 Hxy _ IH]; [reflexivity|].
  simpl. rewrite IH, !strip_alt, Hxy. reflexivity.
Qed.

Lemma map_filter_strip (l : list string) :
  map strip (List.filter (λ n, truthy (strip n)) l)
  = List.filter truthy (map strip l).
Proof.
  induction l as [|x l IH]; [reflexivity|].
  simpl. destruct (truthy (strip x)); simpl; rewrite IH; reflexivity.
Qed.

End StringFacts.

Section MarkerFacts.
Import PyStr.

Lemma startswith_app p s :
  startswith p s = true → s = p +:+ drop (String.length p) s.
Proof.
  revert s. induction p as [|a p IH]; intros s H; [reflexivity|].
  destruct s as [|b s]; [discriminate|].
  simpl in H. apply andb_prop in H as [Hab Hp].
  apply Ascii.eqb_eq in Hab. subst b.
  change (String a s = String a (p +:+ drop (String.length p) s)).
  f_equal. apply IH, Hp.
Qed.

(** [after_marker] cuts at an occurrence of the marker. *)
Lemma after_marker_app m s rest :
  after_marker m s = Some rest → ∃ pre, s = pre +:+ m +:+ rest.
Proof.
  induction s as [|a s IH]; simpl.
  - destruct (startswith m "") eqn:E; [|discriminate].
    intros [= <-]. exists "". apply (startswith_app _ _ E).
  - destruct (startswith m (String a s)) eqn:E.
    + intros [= <-]. exists "". apply (startswith_app _ _ E).
    + intros H. destruct (IH H) as [pre ->]. exists (String a pre). reflexivity.
Qed.

Lemma split_once_after_marker m s :
  match after_marker m s with
  | Some rest => ∃ pre, split_once m s = [pre; rest]
  | None => split_once m s = [s]
  end.
Proof.
  induction s as [|a s IH]; simpl.
  - destruct (startswith m ""); eauto.
  - destruct (startswith m (String a s)); [eauto|].
    destruct (after_marker m s) as [rest|].
    + destruct IH as [pre ->]. eauto.
    + rewrite IH. reflexivity.
Qed.

Lemma find_from_after_marker m s i :
  0 <= i →
  match after_marker m s with
  | Some _ => i <= find_from i m s
  | None => find_from i m s = -1
  end.
Proof.
  revert i. induction s as [|a s IH]; intros i Hi; simpl.
  - destruct (startswith m ""); [lia|reflexivity].
  - destruct (startswith m (String a s)); [lia|].
    specialize (IH (i + 1) ltac:(lia)).
    destruct (after_marker m s); [lia|exact IH].
Qed.

Lemma contains_after_marker m s :
  contains m s = match after_marker m s with Some _ => true | None => false end.
Proof.
  unfold contains, find.
  pose proof (find_from_after_marker m s 0 ltac:(lia)) as H.
  destruct (after_marker m s).
  - apply negb_true_iff, Z.eqb_neq. lia.
  - rewrite H. reflexivity.
Qed.

(** The parse of the source and the parse of the specification agree. *)
Lemma names_of_reply_spec resp rest :
  after_marker "online:" resp = Some rest →
  names_of_reply resp
  = List.filter truthy (map strip (split_char "," rest)).
Proof.
  intros H. unfold names_of_reply.
  pose proof (split_once_after_marker "online:" resp) as Hs.
  rewrite H in Hs. destruct Hs as [pre ->]. cbn [length Nat.ltb Nat.leb nth].
  rewrite <- (split_strip rest).
  destruct (strip rest) as [|c r] eqn:E; [reflexivity|].
  cbn [is_empty]. apply map_filter_strip.
Qed.

End MarkerFacts.

(** ** The command channel *)

Lemma rcon_list_players_run (cfg : Config) (reply : Outcome string) (st : State) :
  is_integer (RCON_PORT cfg) →
  (∀ resp, reply = Ok resp →
     ∃ st', rcon_list_players cfg reply st = (Ok (spec_participants resp), st')
            ∧ log st' =
                log st ++
                match after_marker "online:" resp with
                | Some _ => []
                | None => [(WARNING, "Unexpected RCON response format: " +:+ resp)]
                end)
  ∧ ((∃ e st', rcon_list_players cfg reply st = (Raise e, st'))
     ↔ (∃ e, reply = Raise e)).
Proof.
  intros [port Hport]. unfold rcon_list_players, try_except, bind, io.
  rewrite Hport. cbn [ret]. split.
  - intros resp ->. rewrite contains_after_marker. unfold spec_participants.
    destruct (after_marker "online:" resp) as [rest|] eqn:E; cbn.
    + rewrite (names_of_reply_spec _ _ E). eexists. split; [reflexivity|].
      cbn. rewrite app_nil_r. reflexivity.
    + eexists. split; reflexivity.
  - split.
    + intros (e & st' & H). destruct reply as [resp|e0]; [|eauto].
      exfalso. destruct (negb (PyStr.contains "online:" resp)); cbn in H; discriminate.
    + intros [e ->]. cbn. eauto.
Qed.


(** ** Configuration validation *)

Section Validation.

Lemma truthy_opt_is_set o : truthy_opt o = true ↔ is_set o.
Proof.
  unfold is_set. destruct o as [[|c s]|]; simpl; split.
  - discriminate.
  - intros (s & [= <-] & H). congruence.
  - intros _. exists (String c s). split; [reflexivity|discriminate].
  - reflexivity.
  - discriminate.
  - intros (s & [=] & _).
Qed.

Lemma not_truthy_opt o : negb (truthy_opt o) = true ↔ ¬ is_set o.
Proof.
  rewrite negb_true_iff, <- truthy_opt_is_set.
  destruct (truthy_opt o); split; congruence.
Qed.

Lemma not_integer s :
  negb (bool_decide (is_Some (PyInt.py_int s))) = true ↔ ¬ is_integer s.
Proof.
  unfold is_integer. rewrite negb_true_iff, bool_decide_eq_false.
  unfold is_Some. reflexivity.
Qed.

Lemma violatedb_spec cfg r : violatedb cfg r = true ↔ violated cfg r.
Proof.
  destruct r; simpl;
    try apply not_truthy_opt; try apply not_integer.
  - rewrite andb_true_iff, truthy_opt_is_set, not_integer. unfold is_set.
    split.
    + intros [(s & Hs & Hne) Hi]. rewrite Hs in Hi. simpl in Hi. eauto.
    + intros (s & Hs & Hne & Hi). rewrite Hs. simpl. eauto.
  - destruct (PyInt.py_int (RCON_PORT cfg)) as [port|].
    + rewrite orb_true_iff, Z.ltb_lt, Z.gtb_gt. split.
      * intros H. exists port. split; [reflexivity|lia].
      * intros (p & [= <-] & H). lia.
    + split; [discriminate|]. intros (p & [=] & _).
  - destruct (PyInt.py_int (POLL_SECONDS cfg)) as [poll|].
    + rewrite Z.ltb_lt. split.
      * intros H. exists poll. split; [reflexivity|lia].
      * intros (p & [= <-] & H). lia.
    + split; [discriminate|]. intros (p & [=] & _).
Qed.


Lemma check_token_violations cfg errors :
  check_token cfg errors = errors ++ violation_messages cfg [TokenSet].
Proof.
  unfold check_token, violation_messages. cbn.
  destruct (negb (truthy_opt (TOKEN cfg))); cbn; [|rewrite app_nil_r]; reflexivity.
Qed.

Lemma check_channel_violations cfg errors :
  check_channel cfg errors
  = errors ++ violation_messages cfg [ChannelSet; ChannelInteger].
Proof.
  unfold check_channel, violation_messages. cbn.
  destruct (truthy_opt (CHANNEL_ID cfg)); cbn; [|reflexivity].
  destruct (PyInt.py_int (default "" (CHANNEL_ID cfg))); cbn;
    [rewrite app_nil_r|]; reflexivity.
Qed.

Lemma check_host_violations cfg errors :
  check_host cfg errors = errors ++ violation_messages cfg [HostSet].
Proof.
  unfold check_host, violation_messages. cbn.
  destruct (negb (truthy_opt (RCON_HOST cfg))); cbn; [|rewrite app_nil_r]; reflexivity.
Qed.

Lemma check_password_violations cfg errors :
  check_password cfg errors = errors ++ violation_messages cfg [PasswordSet].
Proof.
  unfold check_password, violation_messages. cbn.
  destruct (negb (truthy_opt (RCON_PASSWORD cfg))); cbn;
    [|rewrite app_nil_r]; reflexivity.
Qed.

Lemma check_port_violations cfg errors :
  check_port cfg errors
  = errors ++ violation_messages cfg [PortInteger; PortInRange].
Proof.
  unfold check_port, violation_messages. cbn.
  destruct (PyInt.py_int (RCON_PORT cfg)) as [port|]; cbn; [|reflexivity].
  destruct ((port <? 1) || (port >? 65535)); cbn;
    [|rewrite app_nil_r]; reflexivity.
Qed.

Lemma check_poll_violations cfg errors :
  check_poll cfg errors
  = errors ++ violation_messages cfg [PollInteger; PollAtLeastOne].
Proof.
  unfold check_poll, violation_messages. cbn.
  destruct (PyInt.py_int (POLL_SECONDS cfg)) as [poll|]; cbn; [|reflexivity].
  destruct (poll <? 1); cbn; [|rewrite app_nil_r]; reflexivity.
Qed.

(** The list built by the source is the list of all violations, in the
    order of the checks. *)
Lemma config_errors_violations cfg :
  config_errors cfg = violation_messages cfg all_requirements.
Proof.
  unfold config_errors. cbv zeta.
  rewrite check_poll_violations, check_port_violations,
    check_password_violations, check_host_violations,
    check_channel_violations, check_token_violations.
  unfold violation_messages. rewrite app_nil_l.
  rewrite <- !List.map_app, <- !List.filter_app. reflexivity.
Qed.

Lemma in_config_errors cfg m :
  In m (config_errors cfg) ↔ ∃ r, violated cfg r ∧ m = violation_message r.
Proof.
  rewrite config_errors_violations. unfold violation_messages.
  rewrite in_map_iff. split.
  - intros (r & <- & Hr). apply filter_In in Hr as [_ Hr].
    exists r. split; [apply violatedb_spec, Hr|reflexivity].
  - intros (r & Hr & ->). exists r. split; [reflexivity|].
    apply filter_In. split; [|apply violatedb_spec, Hr].
    destruct r; simpl; tauto.
Qed.

Lemma for_each_logger {A} lvl (f : A → string) (l : list A) st :
  ∃ st', for_each l (λ x, logger lvl (f x)) st = (Ok tt, st')
         ∧ log st' = log st ++ map (λ x, (lvl, f x)) l.
Proof.
  revert st. induction l as [|x l IH]; intros st; simpl.
  - eexists. split; [reflexivity|]. rewrite app_nil_r. reflexivity.
  - unfold bind at 1. cbn [logger modify].
    destruct (IH (add_log lvl (f x) st)) as (st' & -> & Hlog).
    eexists. split; [reflexivity|]. rewrite Hlog. cbn.
    rewrite <- app_assoc. reflexivity.
Qed.

End Validation.


(** ** Reasoning about commands *)

Section Total.

Lemma total_ret {A} (a : A) : total (ret a).
Proof. intros st. eexists _, _. reflexivity. Qed.

Lemma total_get {A} (proj : State → A) : total (get proj).
Proof. intros st. eexists _, _. reflexivity. Qed.

Lemma total_modify f : total (modify f).
Proof. intros st. eexists _, _. reflexivity. Qed.

Lemma total_logger lvl msg : total (logger lvl msg).
Proof. apply total_modify. Qed.

Lemma total_bind {A B} (m : M A) (f : A → M B) :
  total m → (∀ a, total (f a)) → total (bind m f).
Proof.
  intros Hm Hf st. unfold bind.
  destruct (Hm st) as (a & st' & ->). apply Hf.
Qed.

(** A [try] whose handler never raises never raises, whatever its body. *)
Lemma total_try_except {A} (body : M A) (handler : exn → M A) :
  (∀ e, total (handler e)) → total (try_except body handler).
Proof.
  intros Hh st. unfold try_except.
  destruct (body st) as [[a|e] st']; [eexists _, _; reflexivity|apply Hh].
Qed.

Lemma total_for_each {A} (l : list A) (body : A → M unit) :
  (∀ x, total (body x)) → total (for_each l body).
Proof.
  intros Hb. induction l as [|x l IH]; simpl.
  - apply total_ret.
  - apply total_bind; [apply Hb|intros _; exact IH].
Qed.

End Total.

Section Steps.
Variable R : State → State → Prop.
Hypothesis R_refl : ∀ st, R st st.
Hypothesis R_trans : ∀ s1 s2 s3, R s1 s2 → R s2 s3 → R s1 s3.

Lemma steps_ret {A} (a : A) : steps R (ret a).
Proof. intros st. apply R_refl. Qed.

Lemma steps_raise {A} e : steps R (@raise A e).
Proof. intros st. apply R_refl. Qed.

Lemma steps_get {A} (proj : State → A) : steps R (get proj).
Proof. intros st. apply R_refl. Qed.

Lemma steps_pure {A} (r : Outcome A) : steps R (λ st, (r, st)).
Proof. intros st. apply R_refl. Qed.

Lemma steps_modify f : (∀ st, R st (f st)) → steps R (modify f).
Proof. intros H st. apply H. Qed.

Lemma steps_io {A} a (r : Outcome A) :
  (∀ st, R st (add_trace a st)) → steps R (io a r).
Proof. intros H st. apply H. Qed.

Lemma steps_bind {A B} (m : M A) (f : A → M B) :
  steps R m → (∀ a, steps R (f a)) → steps R (bind m f).
Proof.
  intros Hm Hf st. unfold bind. specialize (Hm st).
  destruct (m st) as [[a|e] st']; simpl in *; [|exact Hm].
  eapply R_trans; [exact Hm|apply Hf].
Qed.

Lemma steps_try_except {A} (body : M A) (handler : exn → M A) :
  steps R body → (∀ e, steps R (handler e)) → steps R (try_except body handler).
Proof.
  intros Hb Hh st. unfold try_except. specialize (Hb st).
  destruct (body st) as [[a|e] st']; simpl in *; [exact Hb|].
  eapply R_trans; [exact Hb|apply Hh].
Qed.

Lemma steps_try_except_FileNotFoundError {A} (body handler : M A) :
  steps R body → steps R handler →
  steps R (try_except_FileNotFoundError body handler).
Proof.
  intros Hb Hh st. unfold try_except_FileNotFoundError. specialize (Hb st).
  destruct (body st) as [[a|e] st']; simpl in *; [exact Hb|].
  destruct (is_FileNotFoundError e); simpl; [|exact Hb].
  eapply R_trans; [exact Hb|apply Hh].
Qed.

Lemma steps_for_each {A} (l : list A) (body : A → M unit) :
  (∀ x, steps R (body x)) → steps R (for_each l body).
Proof.
  intros Hb. induction l as [|x l IH]; simpl.
  - apply steps_ret.
  - apply steps_bind; [apply Hb|intros _; exact IH].
Qed.

End Steps.

(** Breaks a command into its primitive steps; what is left are the
    obligations on the state updates. *)
Ltac steps_tac :=
  repeat match goal with
    | |- steps _ (match ?x with _ => _ end) => destruct x
    | |- steps _ (ret _) => apply steps_ret; assumption
    | |- steps _ (raise _) => apply steps_raise; assumption
    | |- steps _ (get _) => apply steps_get; assumption
    | |- steps _ (bind _ _) => apply steps_bind; [assumption| |intros ?]
    | |- steps _ (try_except _ _) =>
        apply steps_try_except; [assumption| |intros ?]
    | |- steps _ (try_except_FileNotFoundError _ _) =>
        apply steps_try_except_FileNotFoundError; [assumption| |]
    | |- steps _ (for_each _ _) => apply steps_for_each; [assumption|assumption|intros ?]
    | |- steps _ (modify _) => apply steps_modify
    | |- steps _ (io _ _) => apply steps_io
    | |- steps _ (fun st => (_, st)) => apply steps_pure; assumption
    end.

Ltac total_tac :=
  repeat match goal with
    | |- total (match ?x with _ => _ end) => destruct x
    | |- total (ret _) => apply total_ret
    | |- total (get _) => apply total_get
    | |- total (modify _) => apply total_modify
    | |- total (logger _ _) => apply total_logger
    | |- total (try_except _ _) => apply total_try_except; intros ?
    | |- total (bind _ _) => apply total_bind; [|intros ?]
    | |- total (for_each _ _) => apply total_for_each; intros ?
    end.

(** ** The log tailer: never raising, and what it leaves alone *)

Lemma same_loop_state_refl st : same_loop_state st st.
Proof. repeat split. Qed.

Lemma same_loop_state_trans s1 s2 s3 :
  same_loop_state s1 s2 → same_loop_state s2 s3 → same_loop_state s1 s3.
Proof.
  unfold same_loop_state. intros (?&?&?&?) (?&?&?&?).
  repeat split; congruence.
Qed.

Lemma load_log_position_total w : total (load_log_position w).
Proof. unfold load_log_position. total_tac. Qed.

Lemma save_log_position_total w p : total (save_log_position w p).
Proof. unfold save_log_position. total_tac. Qed.

Lemma resume_position_total w : total (resume_position w).
Proof.
  unfold resume_position. total_tac. apply load_log_position_total.
Qed.

Lemma tail_log_total cfg w : total (tail_log cfg w).
Proof. unfold tail_log. total_tac. Qed.

Lemma check_log_for_deaths_total cfg w : total (check_log_for_deaths cfg w).
Proof.
  unfold check_log_for_deaths.
  apply total_bind; [apply total_modify|intros _].
  apply total_bind; [apply resume_position_total|intros _].
  apply tail_log_total.
Qed.

Lemma check_log_for_deaths_frame cfg w :
  steps same_loop_state (check_log_for_deaths cfg w).
Proof.
  pose proof same_loop_state_refl. pose proof same_loop_state_trans.
  unfold check_log_for_deaths, resume_position, tail_log, tail_remote, tail_local,
    load_log_position, save_log_position, rotation_check, get_sftp_connection,
    connect_sftp, logger.
  steps_tac; intros; repeat split.
Qed.

Lemma rcon_list_players_frame cfg reply :
  steps same_loop_state (rcon_list_players cfg reply).
Proof.
  pose proof same_loop_state_refl. pose proof same_loop_state_trans.
  unfold rcon_list_players, logger.
  steps_tac; intros; repeat split.
Qed.

(** ** One iteration of the polling loop *)

Lemma bind_ok {A B} (m : M A) (f : A → M B) st a st1 :
  m st = (Ok a, st1) → bind m f st = f a st1.
Proof. intros H. unfold bind. rewrite H. reflexivity. Qed.


(** A notification loop attempts one send per item, in the order of the
    list, whether or not the sends succeed. *)
Lemma notify_loop w (l : list string) (message info : string → string)
    (failure : exn → string) st :
  ∃ st',
    for_each l (λ x,
      try_except
        (channel_send w (message x) ;; logger INFO (info x))
        (λ discord_error, logger ERROR (failure discord_error))) st
    = (Ok tt, st')
    ∧ sends (map message l) st st'.
Proof.
  revert st. induction l as [|x l IH]; intros st; simpl.
  - eexists. split; [reflexivity|]. unfold sends. rewrite app_nil_r. repeat split.
  - unfold bind at 1, try_except, bind at 1, channel_send.
    destruct (send_error w (message x)) as [e|]; cbn [outcome_of logger modify];
      match goal with
      | |- ∃ st', for_each l ?b ?s = _ ∧ _ =>
          destruct (IH s) as (st' & Hrun & (H1 & H2 & H3 & H4))
      end;
      exists st'; (split; [exact Hrun|]); unfold sends;
      rewrite H1, H2, H3, H4; cbn; rewrite <- app_assoc; repeat split.
Qed.

Lemma tick_body_run cfg w st resp :
  is_integer (RCON_PORT cfg) →
  rcon_reply w = Ok resp →
  let current := spec_participants resp in
  let joined := current ∖ last_online st in
  let left := last_online st ∖ current in
  ∃ found st',
    tick_body cfg w st = (Ok tt, st')
    ∧ last_online st' = current
    ∧ consecutive_errors st' = 0
    ∧ client_closed st' = client_closed st
    ∧ sent st' =
        sent st ++ map join_message (py_sorted joined)
        ++ (if NOTIFY_LOGOUT cfg then map leave_message (py_sorted left) else [])
        ++ map death_notice found.
Proof.
  intros Hport Hreply current joined left.
  destruct (rcon_list_players_run cfg (rcon_reply w) st Hport) as [Hok _].
  destruct (Hok resp Hreply) as (st1 & Hq & _).
  pose proof (rcon_list_players_frame cfg (rcon_reply w) st) as F1.
  rewrite Hq in F1. destruct F1 as (L1 & C1 & D1 & S1). simpl in L1, C1, D1, S1.
  unfold tick_body. rewrite (bind_ok _ _ _ _ _ Hq).
  unfold bind at 1. cbn [modify]. unfold bind at 1. cbn [get].
  cbn [last_online set_consecutive_errors]. rewrite L1. fold joined left.
  (* joins *)
  match goal with
  | |- ∃ f s, bind (for_each ?l ?b) ?k ?s0 = _ ∧ _ =>
      destruct (notify_loop w l join_message
                  (λ player, "[JOIN] " +:+ player +:+ " joined the server")
                  (λ e, "Failed to send Discord message: " +:+ str_exn e) s0)
        as (st2 & Hj & (L2 & C2 & D2 & S2))
  end.
  rewrite (bind_ok _ _ _ _ _ Hj).
  (* leaves *)
  assert (Hl : ∃ st3,
    (if NOTIFY_LOGOUT cfg then
       for_each (py_sorted left) (λ player,
         try_except
           (channel_send w (leave_message player) ;;
            logger INFO ("[LEAVE] " +:+ player +:+ " left the server"))
           (λ discord_error,
              logger ERROR ("Failed to send Discord message: "
                            +:+ str_exn discord_error)))
     else ret tt) st2 = (Ok tt, st3)
    ∧ sends (if NOTIFY_LOGOUT cfg then map leave_message (py_sorted left) else [])
        st2 st3).
  { destruct (NOTIFY_LOGOUT cfg).
    - apply (notify_loop w (py_sorted left) leave_message
               (λ player, "[LEAVE] " +:+ player +:+ " left the server")
               (λ e, "Failed to send Discord message: " +:+ str_exn e)).
    - eexists. split; [reflexivity|]. unfold sends. rewrite app_nil_r. repeat split. }
  destruct Hl as (st3 & Hl & (L3 & C3 & D3 & S3)).
  rewrite (bind_ok _ _ _ _ _ Hl).
  (* the log tailer *)
  destruct (check_log_for_deaths_total cfg (log_world w) st3) as (found & st4 & Hc).
  pose proof (check_log_for_deaths_frame cfg (log_world w) st3) as F4.
  rewrite Hc in F4. destruct F4 as (L4 & C4 & D4 & S4). simpl in L4, C4, D4, S4.
  rewrite (bind_ok _ _ _ _ _ Hc).
  (* death notices *)
  destruct (notify_loop w found death_notice
              (λ death_msg, "[DEATH] " +:+ death_msg)
              (λ e, "Failed to send Discord death message: " +:+ str_exn e) st4)
    as (st5 & Hd & (L5 & C5 & D5 & S5)).
  rewrite (bind_ok _ _ _ _ _ Hd).
  exists found. eexists. split; [reflexivity|].
  cbn. rewrite C5, C4, C3, C2, D5, D4, D3, D2, S5, S4, S3, S2. cbn.
  rewrite D1, S1, <- !app_assoc. repeat split.
Qed.

Lemma tick_success cfg w st resp :
  is_integer (RCON_PORT cfg) →
  rcon_reply w = Ok resp →
  let current := spec_participants resp in
  let joined := current ∖ last_online st in
  let left := last_online st ∖ current in
  ∃ found st',
    tick cfg w st = (Ok true, st')
    ∧ last_online st' = current
    ∧ consecutive_errors st' = 0
    ∧ client_closed st' = client_closed st
    ∧ sent st' =
        sent st ++ map join_message (py_sorted joined)
        ++ (if NOTIFY_LOGOUT cfg then map leave_message (py_sorted left) else [])
        ++ map death_notice found.
Proof.
  intros Hport Hreply current joined left.
  destruct (tick_body_run cfg w st resp Hport Hreply)
    as (found & st' & Hrun & H).
  exists found, st'. split; [|exact H].
  unfold tick, try_except. rewrite (bind_ok _ _ _ _ _ Hrun). reflexivity.
Qed.



(** ** The diff of participants *)






(** ** The failure threshold *)









(** ** The log tailer never raises *)

Section Returns.
Context {A : Type} (P : A → Prop).

Lemma returns_ret a : P a → returns P (ret a).
Proof. intros H st. exact H. Qed.

Lemma returns_bind {B} (m : M B) (f : B → M A) :
  (∀ b, returns P (f b)) → returns P (bind m f).
Proof.
  intros Hf st. unfold bind.
  destruct (m st) as [[b|e] st']; [apply Hf|exact I].
Qed.

Lemma returns_try_except (body : M A) (handler : exn → M A) :
  returns P body → (∀ e, returns P (handler e)) →
  returns P (try_except body handler).
Proof.
  intros Hb Hh st. unfold try_except. specialize (Hb st).
  destruct (body st) as [[a|e] st']; [exact Hb|apply Hh].
Qed.

Lemma returns_try_except_FileNotFoundError (body handler : M A) :
  returns P body → returns P handler →
  returns P (try_except_FileNotFoundError body handler).
Proof.
  intros Hb Hh st. unfold try_except_FileNotFoundError. specialize (Hb st).
  destruct (body st) as [[a|e] st']; [exact Hb|].
  destruct (is_FileNotFoundError e); [apply Hh|exact I].
Qed.

End Returns.

Ltac returns_tac :=
  repeat match goal with
    | |- returns _ (match ?x with _ => _ end) => destruct x
    | |- returns _ (ret _) => apply returns_ret; exact eq_refl || exact I
    | |- returns _ (bind _ _) => apply returns_bind; intros ?
    | |- returns _ (try_except _ _) => apply returns_try_except; [|intros ?]
    | |- returns _ (try_except_FileNotFoundError _ _) =>
        apply returns_try_except_FileNotFoundError
    end.

Lemma tail_branch_early cfg w :
  returns early_empty
    (try_except
       (if use_sftp cfg then tail_remote cfg w else tail_local cfg w)
       (λ e, logger ERROR ("[ERROR] Error reading log file: " +:+ str_exn e) ;;
             ret None)).
Proof. unfold tail_remote, tail_local. returns_tac. Qed.

Lemma tail_log_result cfg w st found st' :
  tail_log cfg w st = (Ok found, st') →
  found = [] ∨ found = death_messages st'.
Proof.
  unfold tail_log.
  destruct (negb (use_sftp cfg) && negb (truthy (LOG_FILE_PATH cfg))).
  - intros [= <- <-]. left. reflexivity.
  - pose proof (tail_branch_early cfg w st) as He. unfold bind.
    destruct (try_except _ _ st) as [[[l|]|e] st1]; simpl in He.
    + intros [= <- <-]. left. exact He.
    + intros [= <- <-]. right. reflexivity.
    + discriminate.
Qed.

(** C7.  [check_log_for_deaths] never raises: in every state and whatever
    the file system and the SFTP server do, it returns a list, which is empty
    or holds the events found, and it leaves the failure counter alone; so an
    iteration whose query succeeds ends with the counter at 0. *)
Theorem check_log_for_deaths_never_raises (cfg : Config) (w : LogWorld) (st : State) :
  (∃ found st',
      check_log_for_deaths cfg w st = (Ok found, st')
      ∧ (found = [] ∨ found = death_messages st')
      ∧ consecutive_errors st' = consecutive_errors st)
  ∧ (∀ (tw : TickWorld) resp,
       log_world tw = w →
       is_integer (RCON_PORT cfg) →
       rcon_reply tw = Ok resp →
       ∃ st', tick cfg tw st = (Ok true, st') ∧ consecutive_errors st' = 0).
Proof.
  split.
  - destruct (check_log_for_deaths_total cfg w st) as (found & st' & Hrun).
    exists found, st'. split; [exact Hrun|]. split.
    + unfold check_log_for_deaths, bind in Hrun. cbn [modify] in Hrun.
      destruct (resume_position w (set_death_messages [] st)) as [[[]|e] st1];
        [|discriminate].
      apply (tail_log_result _ _ _ _ _ Hrun).
    + pose proof (check_log_for_deaths_frame cfg w st) as F.
      rewrite Hrun in F. apply F.
  - intros tw resp _ Hport Hreply.
    destruct (tick_success cfg tw st resp Hport Hreply)
      as (found & st' & Hrun & _ & C & _).
    exists st'. auto.
Qed.

(** ** The cursor *)

(** What the block "load saved position on first run" does: nothing unless
    the cursor is 0; then the cursor becomes the saved position.  Only the
    log and the trace grow besides. *)
Lemma resume_position_run w st :
  ∃ L T,
    resume_position w st
    = (Ok tt,
       mkState (last_online st)
         (if log_file_position st =? 0 then saved_position w st
          else log_file_position st)
         (sftp_client st) (ssh_client st) (consecutive_errors st)
         (death_messages st) (position_file st) (client_closed st)
         (log st ++ L) (sent st) (trace st ++ T))
    ∧ Forall not_local T.
Proof.
  destruct st as [lo pos sc ss ce dm pf cc lg sn tr].
  unfold resume_position, saved_position, load_log_position, try_except, bind,
    get, io, logger, modify, ret, raise.
  cbn [log_file_position position_file log trace last_online sftp_client
       ssh_client consecutive_errors death_messages client_closed sent].
  destruct (pos =? 0).
  2:{ exists [], []. rewrite !app_nil_r. split; [reflexivity|constructor]. }
  destruct pf as [content|]; cbn.
  - destruct (position_read_error w) as [e|]; cbn.
    + eexists [_], [_]. split; [reflexivity|repeat constructor].
    + destruct (PyInt.py_int (position_text content)) as [n|]; cbn.
      * destruct (n >? 0); cbn.
        -- eexists [_], [_]. split; [reflexivity|repeat constructor].
        -- eexists [], [_]. rewrite app_nil_r.
           split; [reflexivity|repeat constructor].
      * eexists [_], [_]. split; [reflexivity|repeat constructor].
  - exists [], []. rewrite !app_nil_r. split; [reflexivity|constructor].
Qed.

(** ** Calls that find nothing new *)

Lemma file_size_nonneg c : 0 <= file_size_of c.
Proof. unfold file_size_of. lia. Qed.

Lemma drop_all c : PyStr.drop (Z.to_nat (file_size_of c)) c = "".
Proof.
  unfold file_size_of. rewrite Nat2Z.id.
  induction c as [|a c IH]; [reflexivity|exact IH].
Qed.

Lemma drop_zero c : PyStr.drop (Z.to_nat 0) c = c.
Proof. reflexivity. Qed.

Lemma size_zero_empty c : file_size_of c = 0 → c = "".
Proof. destruct c; [reflexivity|]. unfold file_size_of. cbn. lia. Qed.

Lemma drop_empty n : PyStr.drop n "" = "".
Proof. destruct n; reflexivity. Qed.

Lemma parse_nothing :
  parse_death_messages (PyStr.readlines (decode_ignore "")) = [].
Proof. reflexivity. Qed.

Section Tailer.

Local Opaque parse_death_messages PyStr.split_char PyStr.readlines
  decode_ignore file_bytes PyInt.py_int PyInt.py_str PyStr.strip PyStr.drop
  truthy String.append.

Ltac unfold_tailer :=
  unfold tail_log, tail_remote, tail_local, save_log_position, rotation_check,
    get_sftp_connection, connect_sftp, use_sftp, source, try_except,
    try_except_FileNotFoundError, bind, get, io, logger, modify, ret, raise,
    outcome_of in *.

Ltac split_step :=
  match goal with
  | |- context [match ?x with _ => _ end] =>
      lazymatch x with
      | context [match _ with _ => _ end] => fail
      | _ => first [ is_var x; destruct x | destruct x eqn:? ]
      end
  end.

Ltac zify_tests :=
  repeat match goal with
    | H : (_ =? _) = true |- _ => apply Z.eqb_eq in H
    | H : (_ =? _) = false |- _ => apply Z.eqb_neq in H
    | H : (_ <? _) = true |- _ => apply Z.ltb_lt in H
    | H : (_ <? _) = false |- _ => apply Z.ltb_ge in H
    | H : (_ >? _) = true |- _ => rewrite Z.gtb_ltb in H; apply Z.ltb_lt in H
    | H : (_ >? _) = false |- _ => rewrite Z.gtb_ltb in H; apply Z.ltb_ge in H
    end.

Ltac open_records cfg w st :=
  destruct cfg as [tok chan host port pw poll notify lpath sh sport su sp spath];
  destruct w as [pre pwe pfe probe conn rlog rre rce llog lre lce];
  destruct st as [lo pos sc ss ce dm pf cc lg sn tr].

Ltac sizes := unfold file_size_of in *; lia.

Lemma tail_log_settled cfg w st :
  death_messages st = [] →
  settled cfg w st →
  ∃ st', tail_log cfg w st = (Ok [], st').
Proof.
  intros Hdm H.
  open_records cfg w st.
  unfold settled, no_session, read_fails, source, use_sftp in H.
  cbn in H, Hdm. subst dm.
  unfold_tailer. cbn.
  destruct (truthy sh), (truthy su), (truthy spath), (truthy sp),
    (truthy lpath); cbn in *.
  all: repeat (split_step; simpl); simpl in *; zify_tests;
    try (eexists; reflexivity).
  all: destruct H as [[? ?]|[[? [?|[[?|?] [?|?]]]]|[H|[?|(c & Hc & Hcur)]]]];
    try congruence;
    try (exfalso; apply (H _ eq_refl)).
  all: injection Hc as <-.
  all: try (exfalso; sizes).
  all: destruct Hcur as [Hz|[Heq|Hneg]]; try (exfalso; sizes).
  all: try (apply size_zero_empty in Hz; subst content).
  all: try subst pos.
  all: rewrite ?drop_empty, ?drop_all, ?parse_nothing.
  all: eexists; reflexivity.
Qed.

Ltac pick_cursor :=
  eexists; split; [reflexivity|]; cbn;
  first [ left; sizes | right; left; sizes | right; right; sizes ].

Ltac pick_session :=
  split; [reflexivity|];
  first [ left; reflexivity
        | right; split;
          [ first [left; reflexivity | right; discriminate]
          | first [left; reflexivity | left; assumption | right; discriminate] ] ].

Ltac pick_settled :=
  first [ left; split; reflexivity
        | right; left; pick_session
        | right; right; left; intros ?; discriminate
        | right; right; right; left; discriminate
        | right; right; right; right; pick_cursor ].

(** After any call, the same environment has nothing more to deliver. *)
Lemma tail_log_settles cfg w st : settled cfg w (snd (tail_log cfg w st)).
Proof.
  open_records cfg w st.
  unfold settled, no_session, read_fails, source.
  unfold_tailer. cbn.
  destruct (truthy sh), (truthy su), (truthy spath), (truthy sp),
    (truthy lpath); cbn.
  all: repeat (split_step; simpl); simpl in *; zify_tests.
  all: pick_settled.
Qed.

Lemma check_log_for_deaths_tail cfg w st :
  ∃ st1,
    check_log_for_deaths cfg w st = tail_log cfg w st1
    ∧ death_messages st1 = []
    ∧ sftp_client st1 = sftp_client st
    ∧ log_file_position st1 =
        (if log_file_position st =? 0 then saved_position w st
         else log_file_position st)
    ∧ position_file st1 = position_file st
    ∧ ∃ T, trace st1 = trace st ++ T ∧ Forall not_local T.
Proof.
  destruct (resume_position_run w (set_death_messages [] st))
    as (L & T & Hrun & HT).
  eexists. split.
  - unfold check_log_for_deaths. unfold bind at 1. cbn [modify].
    rewrite (bind_ok _ _ _ _ _ Hrun). reflexivity.
  - cbn. repeat split. exists T. auto.
Qed.

Lemma check_settled cfg w st :
  settled cfg w st → ∃ st', check_log_for_deaths cfg w st = (Ok [], st').
Proof.
  intros H.
  destruct (check_log_for_deaths_tail cfg w st) as (st1 & -> & Hdm & Hs & Hp & _).
  apply tail_log_settled; [exact Hdm|].
  unfold settled, no_session in *. rewrite Hs, Hp.
  destruct H as [H|[H|[H|[H|(c & Hc & Hcur)]]]]; auto.
  do 4 right. exists c. split; [exact Hc|].
  destruct (Z.eqb_spec (log_file_position st) 0) as [Hz|Hz]; [|exact Hcur].
  left. destruct Hcur as [?|[?|?]]; lia.
Qed.

Lemma check_settles cfg w st :
  settled cfg w (snd (check_log_for_deaths cfg w st)).
Proof.
  destruct (check_log_for_deaths_tail cfg w st) as (st1 & -> & _).
  apply tail_log_settles.
Qed.

(** Over SFTP, a rotation to an empty file resets the cursor and saves
    nothing. *)
Lemma tail_log_empty_remote cfg w st :
  use_sftp cfg = true →
  remote_log w = Present "" →
  0 < log_file_position st →
  session_available cfg w st →
  death_messages st = [] →
  ∃ st', tail_log cfg w st = (Ok [], st')
         ∧ log_file_position st' = 0
         ∧ position_file st' = position_file st.
Proof.
  intros Hu Hr Hpos Hs Hdm.
  open_records cfg w st.
  unfold session_available, is_integer, use_sftp in *.
  cbn in Hu, Hr, Hpos, Hs, Hdm. subst rlog dm.
  destruct Hs as [Hpw Hs].
  unfold_tailer. cbn. rewrite Hpw.
  destruct (truthy sh), (truthy su), (truthy spath); try discriminate Hu. cbn.
  change (file_size_of "") with 0.
  destruct Hs as [[Hsc Hprobe]|[[z Hz] Hconn]].
  - subst probe. destruct sc as [h|]; [|congruence]. cbn.
    destruct (pos >? 0) eqn:E; cbn.
    + eexists. repeat split.
    + zify_tests. lia.
  - subst conn. rewrite Hz.
    destruct sc as [h|]; cbn; [destruct probe; cbn|];
      (destruct (pos >? 0) eqn:E; cbn;
       [eexists; repeat split|zify_tests; lia]).
Qed.

End Tailer.

(** C9.  Whenever the cursor is 0 at entry, first call or not, the call goes
    on with the cursor set to the value found in the position file.  So
    after a rotation that resets the cursor without any read saving a new
    position (over SFTP, a rotated file that is still empty), the next call
    takes up the stale saved position instead of keeping 0. *)
Theorem cursor_reloaded_when_zero (cfg : Config) (w : LogWorld) (st : State) :
  (log_file_position st = 0 →
   ∃ st1,
     check_log_for_deaths cfg w st = tail_log cfg w st1
     ∧ log_file_position st1 = saved_position w st
     ∧ position_file st1 = position_file st
     ∧ sftp_client st1 = sftp_client st)
  ∧ (∀ w0,
       use_sftp cfg = true →
       remote_log w0 = Present "" →
       0 < log_file_position st →
       session_available cfg w0 st →
       ∃ st',
         check_log_for_deaths cfg w0 st = (Ok [], st')
         ∧ log_file_position st' = 0
         ∧ position_file st' = position_file st
         ∧ ∃ st1,
             check_log_for_deaths cfg w st' = tail_log cfg w st1
             ∧ log_file_position st1 = saved_position w st).
Proof.
  split.
  - intros Hzero.
    destruct (check_log_for_deaths_tail cfg w st)
      as (st1 & Hrun & _ & Hs & Hp & Hf & _).
    exists st1. rewrite Hzero in Hp. auto.
  - intros w0 Hu Hr Hpos Hs.
    destruct (check_log_for_deaths_tail cfg w0 st)
      as (st1 & Hrun & Hdm & Hsc & Hp & Hf & _).
    destruct (Z.eqb_spec (log_file_position st) 0) as [Hz|_]; [lia|].
    destruct (tail_log_empty_remote cfg w0 st1) as (st' & Ht & Hp' & Hf'); auto.
    { lia. }
    { unfold session_available in *. rewrite Hsc. exact Hs. }
    exists st'. rewrite Hrun. split; [exact Ht|].
    split; [exact Hp'|]. split; [congruence|].
    destruct (check_log_for_deaths_tail cfg w st')
      as (st2 & Hrun2 & _ & _ & Hp2 & _).
    exists st2. split; [exact Hrun2|].
    rewrite Hp2, Hp'. cbn. unfold saved_position. rewrite Hf', Hf. reflexivity.
Qed.

(** ** The choice of the source *)







(** ** The text of a death record *)





(* ===================================================================== *)
(** * Scenarios *)
(* ===================================================================== *)

(** C3 (the code departs from it).  Over SFTP, with the cursor at 40 and that
    position saved: the log is rotated and the new file is still empty when
    it is looked at, so the cursor is reset to 0 but nothing is saved; at the
    next call the new file has 62 bytes, the stale 40 is loaded again, and the
    read starts at byte 40 instead of byte 0, missing the event that a read
    from the beginning finds. *)
Theorem rotation_to_empty_file_then_stale_cursor :
  check_log_for_deaths example_cfg (calm_world "") tailing_state
  = (Ok [], rotated_state)
  ∧ log_file_position rotated_state = 0
  ∧ position_file rotated_state = Some "40"
  ∧ file_size_of death_line = 62
  ∧ fst (check_log_for_deaths example_cfg (calm_world death_line) rotated_state)
    = Ok []
  ∧ trace (snd (check_log_for_deaths example_cfg (calm_world death_line)
                  rotated_state))
    = [SftpProbe; SftpStat "/logs/latest.log"; ReadPositionFile; SftpProbe;
       SftpStat "/logs/latest.log"; SftpRead "/logs/latest.log" 40 22;
       WritePositionFile "62"]
  ∧ parse_death_messages
      (PyStr.split_char PyStr.nl (decode_ignore (file_bytes death_line 0 62)))
    = ["Steve fell from a high place"].
Proof. vm_compute. repeat split. Qed.

(** The local branch of the same function does save the reset cursor, and
    then reads the new file from its beginning. *)
Example local_rotation_to_empty_file :
  let st1 := snd (check_log_for_deaths example_cfg_local (calm_world "")
                    tailing_state) in
  log_file_position st1 = 0
  ∧ position_file st1 = Some "0"
  ∧ check_log_for_deaths example_cfg_local (calm_world death_line) st1
    = (Ok ["Steve fell from a high place"],
       snd (check_log_for_deaths example_cfg_local (calm_world death_line) st1))
  ∧ In (LocalRead "logs/latest.log" 0)
       (trace (snd (check_log_for_deaths example_cfg_local
                      (calm_world death_line) st1))).
Proof. vm_compute. repeat split. auto 10. Qed.

(** Scenario C: a cursor at the size of the source. *)
Example scenario_C :
  fst (check_log_for_deaths example_cfg (calm_world death_line)
         (set_log_file_position 62 tailing_state)) = Ok [].
Proof. vm_compute. reflexivity. Qed.

(** Scenario D over SFTP: a cursor beyond the size of the source. *)
Example scenario_D :
  check_log_for_deaths example_cfg (calm_world death_line)
    (set_log_file_position 1000 tailing_state)
  = (Ok ["Steve fell from a high place"],
     snd (check_log_for_deaths example_cfg (calm_world death_line)
            (set_log_file_position 1000 tailing_state)))
  ∧ In (SftpRead "/logs/latest.log" 0 62)
       (trace (snd (check_log_for_deaths example_cfg (calm_world death_line)
                      (set_log_file_position 1000 tailing_state)))).
Proof. vm_compute. split; [reflexivity|auto 10]. Qed.




(** What validation answers to that port and to a channel id of 4301 digits:
    one error each, and exit code 1. *)
Lemma refused_numerals :
  config_errors example_cfg_fs_port = ["RCON_PORT must be a valid integer"]
  ∧ fst (startup example_cfg_fs_port initial_state) = Ok (Exit 1)
  ∧ config_errors example_cfg_long_id
    = ["DISCORD_CHANNEL_ID must be a valid integer"]
  ∧ fst (startup example_cfg_long_id initial_state) = Ok (Exit 1)
  ∧ config_errors example_cfg = []
  ∧ fst (startup example_cfg initial_state) = Ok Start.
Proof. vm_compute. repeat split. Qed.

(** An interval of 401 digits passes validation; one that is not a number
    does not, and would make the first sleep raise. *)
Lemma interval_examples :
  config_errors example_cfg_long_interval = []
  ∧ fst (startup example_cfg_long_interval initial_state) = Ok Start
  ∧ config_errors example_cfg_no_interval = ["POLL_SECONDS must be a valid integer"]
  ∧ sleep_failure example_cfg_no_interval good_tick
    = Some (ValueError "invalid literal for int() with base 10: 'abc'")
  ∧ sleep_failure example_cfg_long_interval overflow_tick
    = Some (OverflowError "int too large to convert to float")
  ∧ sleep_failure example_cfg good_tick = None.
Proof. vm_compute. repeat split. Qed.

(** [int] and its messages on a few strings. *)
Lemma int_examples :
  PyInt.py_int (" 25_575" +:+ NL) = Some 25575
  ∧ PyInt.py_int "-007" = Some (-7)
  ∧ PyInt.py_int (String (ascii_of_nat 28) "5") = None
  ∧ PyInt.py_int "5__0" = None
  ∧ PyInt.py_int "+ 5" = None
  ∧ PyInt.py_int (String.concat "" (repeat "1" 4300)) ≠ None
  ∧ PyInt.py_int long_numeral = None
  ∧ PyInt.int_error_message "abc"
    = "invalid literal for int() with base 10: 'abc'"
  ∧ PyInt.int_error_message "a'b"
    = "invalid literal for int() with base 10: " +:+ String PyInt.dquote "a'b"
      +:+ String PyInt.dquote ""
  ∧ PyInt.int_error_message (String (ascii_of_nat 28) "5")
    = "invalid literal for int() with base 10: '\x1c5'"
  ∧ PyInt.int_error_message (long_numeral +:+ "x")
    = "Exceeds the limit (4300 digits) for integer string conversion: value has 4301 digits; use sys.set_int_max_str_digits() to increase the limit"
  ∧ String.length (PyInt.int_error_message (String.concat "" (repeat "x" 300)))
    = 240%nat.
Proof. vm_compute. repeat split; discriminate. Qed.

(** Decoding keeps well-formed UTF-8 and drops the other bytes. *)
Lemma decode_examples :
  let b (n : Z) := String (ascii_of_nat (Z.to_nat n)) "" in
  decode_ignore ("[" +:+ b 195 +:+ b 137 +:+ "p" +:+ b 195 +:+ b 169 +:+ "e]")
  = "[" +:+ b 195 +:+ b 137 +:+ "p" +:+ b 195 +:+ b 169 +:+ "e]"
  ∧ decode_ignore ("a" +:+ b 128 +:+ "b") = "ab"
  ∧ decode_ignore (b 226 +:+ b 130 +:+ "b") = "b"
  ∧ decode_ignore (b 224 +:+ b 128 +:+ b 128) = ""
  ∧ decode_ignore (b 237 +:+ b 160 +:+ b 128) = ""
  ∧ decode_ignore (b 240 +:+ b 159 +:+ b 152 +:+ b 128 +:+ "z")
    = b 240 +:+ b 159 +:+ b 152 +:+ b 128 +:+ "z"
  ∧ decode_ignore (b 244 +:+ b 144 +:+ b 128 +:+ b 128) = ""
  ∧ decode_ignore (b 225 +:+ b 128 +:+ b 195 +:+ b 169) = b 195 +:+ b 169.
Proof. vm_compute. repeat split. Qed.


(** The cursor at 40, saved; the log rotated to an empty file; then a new
    file of 62 bytes: the second call goes on with the cursor at 40. *)
Lemma cursor_reloaded_when_zero_witness :
  ∃ st',
    check_log_for_deaths example_cfg (calm_world "") tailing_state = (Ok [], st')
    ∧ log_file_position st' = 0
    ∧ position_file st' = position_file tailing_state
    ∧ ∃ st1,
        check_log_for_deaths example_cfg (calm_world death_line) st'
        = tail_log example_cfg (calm_world death_line) st1
        ∧ log_file_position st1 = saved_position (calm_world death_line) tailing_state.
Proof.
  apply (proj2 (cursor_reloaded_when_zero example_cfg (calm_world death_line)
                  tailing_state) (calm_world "")).
  - reflexivity.
  - reflexivity.
  - reflexivity.
  - split; [reflexivity|]. left. split; [discriminate|reflexivity].
Defined.


(* ===================================================================== *)
(** * Further properties *)
(* ===================================================================== *)

(** ** The extractor on a batch of lines *)

Lemma py_in_In x l : py_in x l = true ↔ In x l.
Proof.
  unfold py_in. rewrite existsb_exists. split.
  - intros (y & Hy & E). apply String.eqb_eq in E. subst. exact Hy.
  - intros H. exists x. split; [exact H|apply String.eqb_refl].
Qed.

Lemma py_in_app x l1 l2 : py_in x (l1 ++ l2) = py_in x l1 || py_in x l2.
Proof. unfold py_in. apply existsb_app. Qed.

Lemma lstrip_idemp s : PyStr.lstrip (PyStr.lstrip s) = PyStr.lstrip s.
Proof.
  induction s as [|a s IH]; [reflexivity|].
  simpl. destruct (PyStr.is_space a) eqn:E; [exact IH|].
  simpl. rewrite E. reflexivity.
Qed.

Lemma strip_idemp s : PyStr.strip (PyStr.strip s) = PyStr.strip s.
Proof.
  unfold PyStr.strip.
  rewrite lstrip_rstrip, lstrip_idemp, rstrip_idemp. reflexivity.
Qed.

(** What one line adds to the records found so far. *)
Lemma parse_line_alone acc line :
  parse_line acc line
  = acc ++ List.filter (λ m, negb (py_in m acc)) (parse_line [] line).
Proof.
  unfold parse_line.
  destruct (Re.search true death_pattern line); [|symmetry; apply app_nil_r].
  destruct (PyStr.find "]: " line + 3 >? 3); [|symmetry; apply app_nil_r].
  destruct (PyStr.is_empty _); [symmetry; apply app_nil_r|].
  cbn [py_in existsb app List.filter].
  match goal with |- context [py_in ?m acc] => destruct (py_in m acc) end;
    cbn; [symmetry; apply app_nil_r|reflexivity].
Qed.

Lemma parse_line_single line :
  parse_line [] line = []
  ∨ ∃ m, parse_line [] line = [m] ∧ m ≠ "" ∧ PyStr.strip m = m.
Proof.
  unfold parse_line.
  destruct (Re.search true death_pattern line); [|left; reflexivity].
  destruct (PyStr.find "]: " line + 3 >? 3); [|left; reflexivity].
  destruct (PyStr.is_empty _) eqn:E; [left; reflexivity|].
  right. eexists. split; [reflexivity|]. split.
  - intros H. rewrite H in E. discriminate.
  - apply strip_idemp.
Qed.

Lemma py_in_cons m x l : py_in m (x :: l) = String.eqb m x || py_in m l.
Proof. reflexivity. Qed.

Lemma py_in_filter_out m acc Q :
  py_in m (List.filter (λ x, negb (py_in x acc)) Q)
  = py_in m Q && negb (py_in m acc).
Proof.
  induction Q as [|x Q IH]; [reflexivity|].
  cbn [List.filter]. rewrite py_in_cons.
  destruct (py_in x acc) eqn:Ex; cbn [negb]; rewrite ?py_in_cons, IH;
    (destruct (String.eqb_spec m x) as [->|_]; [|reflexivity]);
    rewrite Ex; cbn; rewrite ?andb_false_r; reflexivity.
Qed.

Lemma filter_twice {A} (p q : A → bool) l :
  List.filter p (List.filter q l) = List.filter (λ x, q x && p x) l.
Proof.
  induction l as [|x l IH]; [reflexivity|].
  cbn. destruct (q x); cbn; [destruct (p x)|]; rewrite ?IH; reflexivity.
Qed.

Lemma fold_parse_line_acc lines acc :
  fold_left parse_line lines acc
  = acc ++ List.filter (λ m, negb (py_in m acc)) (fold_left parse_line lines []).
Proof.
  revert acc. induction lines as [|line lines IH]; intros acc.
  - cbn. symmetry. apply app_nil_r.
  - cbn [fold_left]. rewrite (IH (parse_line acc line)), (IH (parse_line [] line)).
    rewrite (parse_line_alone acc line).
    rewrite List.filter_app, <- app_assoc. f_equal. f_equal.
    rewrite filter_twice. apply List.filter_ext. intros m.
    rewrite py_in_app, py_in_filter_out.
    destruct (py_in m acc), (py_in m (parse_line [] line)); reflexivity.
Qed.

Lemma fold_parse_line_NoDup lines acc :
  NoDup acc → NoDup (fold_left parse_line lines acc).
Proof.
  revert acc. induction lines as [|line lines IH]; intros acc Hacc; [exact Hacc|].
  cbn [fold_left]. apply IH. rewrite parse_line_alone.
  destruct (parse_line_single line) as [->|(m & -> & _)].
  - cbn. rewrite app_nil_r. exact Hacc.
  - cbn. destruct (py_in m acc) eqn:E; cbn.
    + rewrite app_nil_r. exact Hacc.
    + apply NoDup_app. split; [exact Hacc|]. split.
      * intros x Hx Hx'. apply list_elem_of_In in Hx, Hx'.
        destruct Hx' as [<-|[]]. apply py_in_In in Hx. congruence.
      * apply NoDup_singleton.
Qed.

Lemma fold_parse_line_In lines acc m :
  In m (fold_left parse_line lines acc)
  ↔ In m acc ∨ ∃ line, In line lines ∧ parse_line [] line = [m].
Proof.
  revert acc. induction lines as [|line lines IH]; intros acc.
  - cbn. split; [auto|]. intros [H|(l & [] & _)]. exact H.
  - cbn [fold_left]. rewrite IH, parse_line_alone, in_app_iff, filter_In.
    split.
    + intros [[H|[H _]]|(l & Hl & E)].
      * auto.
      * right. exists line. split; [left; reflexivity|].
        destruct (parse_line_single line) as [E|(m' & E & _)]; rewrite E in H.
        -- destruct H.
        -- destruct H as [->|[]]. exact E.
      * right. exists l. split; [right; exact Hl|exact E].
    + intros [H|(l & [<-|Hl] & E)].
      * auto.
      * destruct (py_in m acc) eqn:Em.
        -- left. left. apply py_in_In, Em.
        -- left. right. rewrite E. split; [left; reflexivity|reflexivity].
      * right. eauto.
Qed.

(** X1.  The records of a batch never repeat, are never empty and carry no
    surrounding whitespace. *)
Theorem death_records_distinct_and_trimmed (lines : list string) :
  NoDup (parse_death_messages lines)
  ∧ ∀ m, In m (parse_death_messages lines) → m ≠ "" ∧ PyStr.strip m = m.
Proof.
  split.
  - apply fold_parse_line_NoDup. constructor.
  - intros m Hm. apply fold_parse_line_In in Hm as [[]|(line & _ & E)].
    destruct (parse_line_single line) as [E'|(m' & E' & H)]; rewrite E' in E.
    + discriminate.
    + injection E as <-. exact H.
Qed.

(** X2.  A text is among the records of a batch exactly when some line of the
    batch, taken alone, yields it: a line that matches nothing adds nothing,
    and no matching line is lost. *)
Theorem death_record_of_some_line (lines : list string) (m : string) :
  In m (parse_death_messages lines)
  ↔ ∃ line, In line lines ∧ parse_death_messages [line] = [m].
Proof.
  unfold parse_death_messages. rewrite fold_parse_line_In. cbn [fold_left].
  split; [intros [[]|H]; exact H|auto].
Qed.

(** X3.  Two batches parsed as one give the records of the first, then
    those of the second that the first does not already hold: duplicates are
    dropped within one call only. *)
Theorem death_records_of_two_batches (lines1 lines2 : list string) :
  parse_death_messages (lines1 ++ lines2)
  = parse_death_messages lines1
    ++ List.filter (λ m, negb (py_in m (parse_death_messages lines1)))
         (parse_death_messages lines2).
Proof.
  unfold parse_death_messages. rewrite fold_left_app.
  apply fold_parse_line_acc.
Qed.

(** ** Lines that the pattern recognises *)

Lemma accepts_star icase r s k :
  Re.accepts icase (Re.Star r) s k
  = star_iter (Re.accepts icase r) k (String.length s) s.
Proof. reflexivity. Qed.

Lemma length_append (x s : string) :
  String.length (x +:+ s) = (String.length x + String.length s)%nat.
Proof. induction x as [|a x IH]; [reflexivity|]. cbn. rewrite <- IH. reflexivity. Qed.

Lemma append_String a (x s : string) : String a x +:+ s = String a (x +:+ s).
Proof. reflexivity. Qed.

(** [r*] for a one-character class [p] passes over any run of [p]. *)
Lemma star_iter_class (step : string → (string → bool) → bool) (p : ascii → bool)
    (k : string → bool) (s : string) :
  (∀ a s' k', step (String a s') k' = if p a then k' s' else false) →
  k s = true →
  ∀ x n, all_chars p x = true → (String.length x <= n)%nat →
         star_iter step k n (x +:+ s) = true.
Proof.
  intros Hstep Hk. induction x as [|a x IH]; intros n Hx Hn.
  - change ("" +:+ s) with s. destruct n; unfold star_iter; rewrite Hk; reflexivity.
  - cbn in Hx. destruct (p a) eqn:Ha; [|discriminate].
    destruct n as [|n]; [cbn in Hn; lia|].
    rewrite append_String.
    change (star_iter step k (S n) (String a (x +:+ s)))
      with (if k (String a (x +:+ s)) then true
            else step (String a (x +:+ s))
                   (λ s', if (String.length s' <? String.length (String a (x +:+ s)))%nat
                          then star_iter step k n s' else false)).
    destruct (k (String a (x +:+ s))); [reflexivity|].
    rewrite Hstep, Ha.
    destruct (Nat.ltb_spec (String.length (x +:+ s))
                (String.length (String a (x +:+ s)))) as [_|Hge];
      [|cbn in Hge; lia].
    apply IH; [exact Hx|cbn in Hn; lia].
Qed.

Lemma accepts_star_dot icase x s k :
  all_chars not_newline x = true → k s = true →
  Re.accepts icase (Re.Star Re.Dot) (x +:+ s) k = true.
Proof.
  intros Hx Hk. rewrite accepts_star.
  apply (star_iter_class _ not_newline); auto.
  - intros a s' k'. cbn. unfold not_newline. destruct (Ascii.eqb a PyStr.nl); reflexivity.
  - rewrite length_append. lia.
Qed.

Lemma accepts_plus_word icase name s k :
  name ≠ "" → all_chars PyStr.is_word name = true → k s = true →
  Re.accepts icase (Re.Plus Re.Word) (name +:+ s) k = true.
Proof.
  intros Hne Hw Hk. destruct name as [|a name]; [congruence|].
  cbn in Hw. destruct (PyStr.is_word a) eqn:Ha; [|discriminate].
  unfold Re.Plus. rewrite append_String. cbn [Re.accepts]. rewrite Ha.
  change (Re.accepts icase (Re.Star Re.Word) (name +:+ s) k = true).
  rewrite accepts_star.
  apply (star_iter_class _ PyStr.is_word); auto.
  rewrite length_append. lia.
Qed.

Lemma lower_str_nil s : lower_str s = "" → s = "".
Proof. destruct s; [reflexivity|discriminate]. Qed.

(** A literal is matched whatever the case of the text. *)
Lemma accepts_lit_ignorecase kw phrase s k :
  lower_str phrase = lower_str kw →
  Re.accepts true (Re.lit kw) (phrase +:+ s) k = k s.
Proof.
  revert phrase. induction kw as [|c kw IH]; intros phrase H.
  - apply lower_str_nil in H. subst. reflexivity.
  - destruct phrase as [|a phrase]; [discriminate|].
    cbn in H. injection H as Hc Hrest.
    rewrite append_String. cbn [Re.lit Re.accepts]. rewrite Hc, Ascii.eqb_refl.
    apply IH, Hrest.
Qed.

Lemma accepts_alts icase r rs s k :
  In r rs → Re.accepts icase r s k = true → Re.accepts icase (Re.alts rs) s k = true.
Proof.
  intros Hin Hr. induction rs as [|r0 rs IH]; [destruct Hin|].
  destruct rs as [|r1 rs].
  - destruct Hin as [->|[]]. exact Hr.
  - cbn [Re.alts Re.accepts]. destruct Hin as [->|Hin]; [rewrite Hr; reflexivity|].
    destruct (Re.accepts icase r0 s k); [reflexivity|]. apply IH, Hin.
Qed.

Lemma search_here icase r s :
  Re.accepts icase r s (λ _, true) = true → Re.search icase r s = true.
Proof.
  intros H. unfold Re.search. destruct s; cbn; rewrite H; reflexivity.
Qed.


Lemma accepts_cat icase r1 r2 s k :
  Re.accepts icase (Re.Cat r1 r2) s k
  = Re.accepts icase r1 s (λ s', Re.accepts icase r2 s' k).
Proof. reflexivity. Qed.

Lemma accepts_chr_same icase c s k :
  Re.accepts icase (Re.Chr c) (String c s) k = k s.
Proof. cbn. rewrite !Ascii.eqb_refl. destruct icase; reflexivity. Qed.

Lemma pattern_accepts x name phrase kw rest :
  all_chars not_newline x = true →
  name ≠ "" →
  all_chars PyStr.is_word name = true →
  In kw death_keywords →
  lower_str phrase = lower_str kw →
  Re.search true death_pattern
    ("[" +:+ x +:+ "]: " +:+ name +:+ " " +:+ phrase +:+ rest) = true.
Proof.
  intros Hx Hne Hw Hkw Hci. apply search_here.
  unfold death_pattern.
  change ("[" +:+ x +:+ "]: " +:+ name +:+ " " +:+ phrase +:+ rest)
    with (String "[" (x +:+ "]: " +:+ name +:+ " " +:+ phrase +:+ rest)).
  rewrite accepts_cat, accepts_chr_same, accepts_cat.
  apply accepts_star_dot; [exact Hx|]. cbv beta.
  rewrite accepts_cat, (accepts_lit_ignorecase "]: " "]: ") by reflexivity.
  rewrite accepts_cat. apply accepts_plus_word; [exact Hne|exact Hw|]. cbv beta.
  change (" " +:+ phrase +:+ rest) with (String " " (phrase +:+ rest)).
  rewrite accepts_cat, accepts_chr_same.
  apply (accepts_alts true (Re.lit kw)); [apply in_map, Hkw|].
  apply accepts_lit_ignorecase, Hci.
Qed.



(** ** Decimal numerals: [int(str(n))] *)

Lemma parse_digits_pos d p :
  PyInt.parse_digits (Z.pos p) true (NilEmpty.string_of_uint d)
  = Some (Z.pos (Pos.of_uint_acc d p)).
Proof.
  revert p. induction d; intros p; cbn [NilEmpty.string_of_uint Pos.of_uint_acc];
    [reflexivity|..];
    cbn [PyInt.parse_digits]; 
    match goal with
    | |- (if PyStr.is_digit ?c then _ else _) = _ =>
        change (PyStr.is_digit c) with true; cbv iota
    end;
    match goal with
    | |- PyInt.parse_digits ?v true _ = Some (Z.pos (Pos.of_uint_acc _ ?q)) =>
        replace v with (Z.pos q)
    end; try apply IHd;
    match goal with
    | |- context [PyInt.digit_val ?c] =>
        let v := eval vm_compute in (PyInt.digit_val c) in
        change (PyInt.digit_val c) with v
    end; lia.
Qed.

Lemma parse_digits_zero d :
  PyInt.parse_digits 0 true (NilEmpty.string_of_uint d)
  = Some (Z.of_N (Pos.of_uint d)).
Proof.
  induction d; cbn [NilEmpty.string_of_uint Pos.of_uint]; [reflexivity|..];
    cbn [PyInt.parse_digits];
    match goal with
    | |- (if PyStr.is_digit ?c then _ else _) = _ =>
        change (PyStr.is_digit c) with true; cbv iota
    end;
    match goal with
    | |- context [PyInt.digit_val ?c] =>
        let v := eval vm_compute in (10 * 0 + PyInt.digit_val c) in
        change (10 * 0 + PyInt.digit_val c) with v
    end;
    first [exact IHd | apply parse_digits_pos].
Qed.

(** The first character of a numeral is a digit, so the flag does not
    matter. *)
Lemma parse_digits_numeral d b :
  d ≠ Decimal.Nil →
  PyInt.parse_digits 0 b (NilEmpty.string_of_uint d)
  = Some (Z.of_N (Pos.of_uint d)).
Proof.
  intros Hd. rewrite <- parse_digits_zero.
  destruct d; [congruence|..]; reflexivity.
Qed.

Lemma rstrip_numeral d :
  PyStr.rstrip (NilEmpty.string_of_uint d) = NilEmpty.string_of_uint d.
Proof.
  induction d; cbn [NilEmpty.string_of_uint]; [reflexivity|..];
    rewrite rstrip_cons, IHd;
    match goal with
    | |- context [PyStr.is_space ?c] => change (PyStr.is_space c) with false
    end; rewrite andb_false_r; reflexivity.
Qed.

Lemma strip_numeral d :
  PyStr.strip (NilEmpty.string_of_uint d) = NilEmpty.string_of_uint d.
Proof.
  unfold PyStr.strip.
  replace (PyStr.lstrip (NilEmpty.string_of_uint d))
    with (NilEmpty.string_of_uint d) by (destruct d; reflexivity).
  apply rstrip_numeral.
Qed.

Lemma rstrip_int_numeral d :
  PyInt.rstrip_int (NilEmpty.string_of_uint d) = NilEmpty.string_of_uint d.
Proof.
  induction d; cbn [NilEmpty.string_of_uint]; [reflexivity|..];
    cbn [PyInt.rstrip_int]; rewrite IHd;
    match goal with
    | |- context [PyInt.is_int_space ?c] => change (PyInt.is_int_space c) with false
    end; rewrite andb_false_r; reflexivity.
Qed.

Lemma strip_int_numeral d :
  PyInt.rstrip_int (PyInt.lstrip_int (NilEmpty.string_of_uint d))
  = NilEmpty.string_of_uint d.
Proof.
  replace (PyInt.lstrip_int (NilEmpty.string_of_uint d))
    with (NilEmpty.string_of_uint d) by (destruct d; reflexivity).
  apply rstrip_int_numeral.
Qed.

Lemma py_int_numeral d :
  d ≠ Decimal.Nil →
  PyInt.py_int (NilEmpty.string_of_uint d)
  = if PyInt.count_digits (NilEmpty.string_of_uint d) >? PyInt.max_str_digits
    then None else Some (Z.of_N (Pos.of_uint d)).
Proof.
  intros Hd. unfold PyInt.py_int. cbv zeta. rewrite strip_int_numeral.
  replace (PyInt.unsigned_part (NilEmpty.string_of_uint d))
    with (NilEmpty.string_of_uint d) by (destruct d; reflexivity).
  replace (PyInt.is_negative (NilEmpty.string_of_uint d))
    with false by (destruct d; reflexivity).
  rewrite (parse_digits_numeral d false Hd). reflexivity.
Qed.

Lemma py_int_minus_numeral d :
  d ≠ Decimal.Nil →
  PyInt.py_int (String "-" (NilEmpty.string_of_uint d))
  = if PyInt.count_digits (String "-" (NilEmpty.string_of_uint d))
       >? PyInt.max_str_digits
    then None else Some (- Z.of_N (Pos.of_uint d)).
Proof.
  intros Hd. unfold PyInt.py_int. cbv zeta.
  cbn [PyInt.lstrip_int]. change (PyInt.is_int_space "-") with false. cbv iota.
  cbn [PyInt.rstrip_int]. rewrite rstrip_int_numeral.
  change (PyInt.is_int_space "-") with false. rewrite andb_false_r.
  cbn [PyInt.unsigned_part PyInt.is_negative].
  rewrite (parse_digits_numeral d false Hd). reflexivity.
Qed.

Lemma string_of_uint_nonnil d :
  d ≠ Decimal.Nil → NilZero.string_of_uint d = NilEmpty.string_of_uint d.
Proof. destruct d; [congruence|..]; reflexivity. Qed.

(** [int(str(n))] is [n], unless [str(n)] has more digits than [int]
    accepts. *)
Lemma py_int_py_str n :
  PyInt.py_int (PyInt.py_str n)
  = if digits_of n >? PyInt.max_str_digits then None else Some n.
Proof.
  unfold digits_of, PyInt.py_str. destruct n as [|p|p]; [reflexivity|..];
    cbn [Z.to_int NilZero.string_of_int];
    pose proof (Unsigned.to_uint_nonnil p) as Hp;
    rewrite (string_of_uint_nonnil _ Hp).
  - rewrite py_int_numeral by exact Hp.
    rewrite DecimalPos.Unsigned.of_to. reflexivity.
  - rewrite py_int_minus_numeral by exact Hp.
    rewrite DecimalPos.Unsigned.of_to. reflexivity.
Qed.

Lemma py_int_py_str_within n :
  within_digit_limit n → PyInt.py_int (PyInt.py_str n) = Some n.
Proof.
  unfold within_digit_limit. intros H. rewrite py_int_py_str.
  destruct (Z.gtb_spec (digits_of n) PyInt.max_str_digits); [lia|reflexivity].
Qed.

Lemma py_int_py_str_some n m :
  PyInt.py_int (PyInt.py_str n) = Some m → m = n.
Proof.
  rewrite py_int_py_str.
  destruct (digits_of n >? PyInt.max_str_digits); congruence.
Qed.

Lemma strip_py_str n : PyStr.strip (PyInt.py_str n) = PyInt.py_str n.
Proof.
  unfold PyInt.py_str. destruct n as [|p|p]; [reflexivity|..];
    cbn [Z.to_int NilZero.string_of_int];
    pose proof (Unsigned.to_uint_nonnil p) as Hp;
    rewrite (string_of_uint_nonnil _ Hp).
  - apply strip_numeral.
  - unfold PyStr.strip. cbn [PyStr.lstrip].
    change (PyStr.is_space "-") with false. cbv iota.
    rewrite rstrip_cons, rstrip_numeral.
    change (PyStr.is_space "-") with false. rewrite andb_false_r. reflexivity.
Qed.

(** ** Reads that succeed *)

Section Reads.

Local Opaque parse_death_messages PyStr.split_char PyStr.readlines
  decode_ignore file_bytes PyInt.py_int PyInt.py_str PyStr.strip PyStr.drop
  truthy String.append file_size_of.

Ltac unfold_run :=
  unfold tail_log, tail_remote, tail_local, save_log_position, rotation_check,
    get_sftp_connection, connect_sftp, use_sftp, source, try_except,
    try_except_FileNotFoundError, bind, get, io, logger, modify, ret, raise,
    outcome_of in *.

Ltac case_step :=
  match goal with
  | |- context [match ?x with _ => _ end] =>
      lazymatch x with
      | context [match _ with _ => _ end] => fail
      | _ => first [ is_var x; destruct x | destruct x eqn:? ]
      end
  end.

Ltac tests_to_Z :=
  repeat match goal with
    | H : (_ =? _) = true |- _ => apply Z.eqb_eq in H
    | H : (_ =? _) = false |- _ => apply Z.eqb_neq in H
    | H : (_ <? _) = true |- _ => apply Z.ltb_lt in H
    | H : (_ <? _) = false |- _ => apply Z.ltb_ge in H
    | H : (_ >? _) = true |- _ => rewrite Z.gtb_ltb in H; apply Z.ltb_lt in H
    | H : (_ >? _) = false |- _ => rewrite Z.gtb_ltb in H; apply Z.ltb_ge in H
    end.

Ltac open_all cfg w st :=
  destruct cfg as [tok chan host port pw poll notify lpath sh sport su sp spath];
  destruct w as [pre pwe pfe probe conn rlog rre rce llog lre lce];
  destruct st as [lo pos sc ss ce dm pf cc lg sn tr].

Lemma tail_log_remote_read cfg w st c :
  use_sftp cfg = true →
  session_available cfg w st →
  remote_log w = Present c →
  remote_read_error w = None →
  remote_close_error w = None →
  0 <= log_file_position st →
  death_messages st = [] →
  let size := file_size_of c in
  let start := start_offset (log_file_position st) size in
  ∃ st',
    tail_log cfg w st
    = (Ok (if start <? size then remote_events c start else []), st')
    ∧ log_file_position st' = size
    ∧ sftp_client st' ≠ None
    ∧ (if start <? size then
         last (trace st') = Some (WritePositionFile (PyInt.py_str size))
         ∧ In (SftpRead (SFTP_LOG_PATH cfg) start (size - start)) (trace st')
         ∧ (position_write_error w = None → position_flush_error w = None →
            position_file st' = Some (PyInt.py_str size))
       else position_file st' = position_file st).
Proof.
  intros Hu Hs Hr Hre Hce Hpos Hdm size start. subst size start.
  pose proof (file_size_nonneg c) as Hsize.
  open_all cfg w st.
  unfold session_available, is_integer, use_sftp, start_offset, remote_events in *.
  cbn in Hu, Hs, Hr, Hre, Hce, Hpos, Hdm. subst rlog rre rce dm.
  destruct Hs as [Hpw Hs].
  unfold_run. cbn. rewrite Hpw.
  destruct (truthy sh), (truthy su), (truthy spath); try discriminate Hu. cbn.
  destruct Hs as [[Hsc Hprobe]|[[z Hz] Hconn]].
  - subst probe. destruct sc as [h|]; [|congruence]. cbn.
    repeat (case_step; simpl); tests_to_Z; try lia.
    all: eexists; (split; [reflexivity|]); simpl.
    all: repeat split; try congruence; try lia.
    all: try apply last_snoc.
    all: rewrite ?in_app_iff; cbn; auto 10.
  - subst conn. rewrite Hz.
    destruct sc as [h|]; cbn; [destruct probe; cbn|].
    all: repeat (case_step; simpl); tests_to_Z; try lia.
    all: eexists; (split; [reflexivity|]); simpl.
    all: repeat split; try congruence; try lia.
    all: try apply last_snoc.
    all: rewrite ?in_app_iff; cbn; auto 10.
Qed.

Lemma tail_log_local_read cfg w st c :
  use_sftp cfg = false →
  truthy (LOG_FILE_PATH cfg) = true →
  local_log w = Present c →
  local_read_error w = None →
  local_close_error w = None →
  0 <= log_file_position st →
  let size := file_size_of c in
  let start := start_offset (log_file_position st) size in
  ∃ st',
    tail_log cfg w st = (Ok (local_events c start), st')
    ∧ log_file_position st' = size
    ∧ In (LocalRead (LOG_FILE_PATH cfg) start) (trace st')
    ∧ last (trace st') = Some (WritePositionFile (PyInt.py_str size))
    ∧ (position_write_error w = None → position_flush_error w = None →
       position_file st' = Some (PyInt.py_str size)).
Proof.
  intros Hu Hl Hr Hre Hce Hpos size start. subst size start.
  pose proof (file_size_nonneg c) as Hsize.
  open_all cfg w st.
  unfold use_sftp, start_offset, local_events in *.
  cbn in Hu, Hl, Hr, Hre, Hce, Hpos. subst llog lre lce.
  unfold_run. cbn. rewrite Hu, Hl. cbn.
  repeat (case_step; simpl); tests_to_Z; try lia.
  all: rewrite ?Z.max_r by lia.
  all: eexists; (split; [reflexivity|]); simpl.
  all: repeat split; try congruence; try lia.
  all: try apply last_snoc.
  all: rewrite ?in_app_iff; cbn; auto 10.
Qed.

Lemma tail_log_remote_read_fails cfg w st c e :
  use_sftp cfg = true →
  session_available cfg w st →
  remote_log w = Present c →
  remote_read_error w = Some e →
  0 <= log_file_position st <= file_size_of c →
  death_messages st = [] →
  ∃ st',
    tail_log cfg w st = (Ok [], st')
    ∧ log_file_position st' = log_file_position st
    ∧ position_file st' = position_file st
    ∧ death_messages st' = []
    ∧ sftp_client st' ≠ None.
Proof.
  intros Hu Hs Hr Hre Hpos Hdm.
  pose proof (file_size_nonneg c) as Hsize.
  open_all cfg w st.
  unfold session_available, is_integer, use_sftp in *.
  cbn in Hu, Hs, Hr, Hre, Hpos, Hdm. subst rlog rre dm.
  destruct Hs as [Hpw Hs].
  unfold_run. cbn. rewrite Hpw.
  destruct (truthy sh), (truthy su), (truthy spath); try discriminate Hu. cbn.
  destruct Hs as [[Hsc Hprobe]|[[z Hz] Hconn]].
  - subst probe. destruct sc as [h|]; [|congruence]. cbn.
    repeat (case_step; simpl); tests_to_Z; try lia.
    all: eexists; (split; [reflexivity|]); simpl.
    all: repeat split; try congruence; try lia.
  - subst conn. rewrite Hz.
    destruct sc as [h|]; cbn; [destruct probe; cbn|].
    all: repeat (case_step; simpl); tests_to_Z; try lia.
    all: eexists; (split; [reflexivity|]); simpl.
    all: repeat split; try congruence; try lia.
Qed.

Lemma tail_log_local_read_fails cfg w st c e :
  use_sftp cfg = false →
  truthy (LOG_FILE_PATH cfg) = true →
  local_log w = Present c →
  local_read_error w = Some e →
  0 <= log_file_position st <= file_size_of c →
  death_messages st = [] →
  ∃ st',
    tail_log cfg w st = (Ok [], st')
    ∧ log_file_position st' = log_file_position st
    ∧ position_file st' = position_file st
    ∧ death_messages st' = []
    ∧ last (log st') = Some (ERROR, "[ERROR] Error reading log file: " +:+ str_exn e).
Proof.
  intros Hu Hl Hr Hre Hpos Hdm.
  pose proof (file_size_nonneg c) as Hsize.
  open_all cfg w st.
  unfold use_sftp in *.
  cbn in Hu, Hl, Hr, Hre, Hpos, Hdm. subst llog lre dm.
  unfold_run. cbn. rewrite Hu, Hl. cbn.
  repeat (case_step; simpl); tests_to_Z; try lia.
  all: eexists; (split; [reflexivity|]); simpl.
  all: repeat split; try congruence; try lia.
  all: try apply last_snoc.
Qed.

End Reads.

Lemma effective_cursor_tail cfg w st :
  ∃ st1,
    check_log_for_deaths cfg w st = tail_log cfg w st1
    ∧ death_messages st1 = []
    ∧ sftp_client st1 = sftp_client st
    ∧ log_file_position st1 = effective_cursor w st
    ∧ position_file st1 = position_file st.
Proof.
  destruct (check_log_for_deaths_tail cfg w st)
    as (st1 & H1 & H2 & H3 & H4 & H5 & _).
  exists st1. auto.
Qed.

(** ** 7-bit text *)

Lemma decode_ignore_ascii s : is_ascii s → decode_ignore s = s.
Proof.
  unfold is_ascii, decode_ignore. induction s as [|a s IH]; [reflexivity|].
  cbn [all_chars]. destruct (nat_of_ascii a <? 128)%nat eqn:Ha; [|discriminate].
  intros H. cbn [decode_from]. unfold utf8_head, byte_in.
  apply Nat.ltb_lt in Ha.
  destruct (Nat.leb_spec 0 (nat_of_ascii a)); [|lia].
  destruct (Nat.leb_spec (nat_of_ascii a) 127); [|lia].
  cbn [andb]. rewrite (IH H). reflexivity.
Qed.

Lemma is_ascii_drop n s : is_ascii s → is_ascii (PyStr.drop n s).
Proof.
  unfold is_ascii. revert s. induction n as [|n IH]; intros s H; [exact H|].
  destruct s as [|a s]; [reflexivity|]. cbn [PyStr.drop]. apply IH.
  cbn [all_chars] in H. destruct (nat_of_ascii a <? 128)%nat; [exact H|discriminate].
Qed.

Lemma is_ascii_take n s : is_ascii s → is_ascii (PyStr.take n s).
Proof.
  unfold is_ascii. revert s. induction n as [|n IH]; intros s H; [reflexivity|].
  destruct s as [|a s]; [reflexivity|]. cbn [PyStr.take all_chars] in *.
  destruct (nat_of_ascii a <? 128)%nat; [apply IH, H|discriminate].
Qed.

Lemma remote_events_ascii c start :
  is_ascii c → remote_events c start = remote_records c start.
Proof.
  intros H. unfold remote_events, remote_records, file_bytes.
  rewrite decode_ignore_ascii; [reflexivity|].
  apply is_ascii_take, is_ascii_drop, H.
Qed.

Lemma local_events_ascii c start :
  is_ascii c → local_events c start = local_records c start.
Proof.
  intros H. unfold local_events, local_records.
  rewrite decode_ignore_ascii; [reflexivity|]. apply is_ascii_drop, H.
Qed.

(** X5.  Over SFTP, for a log of 7-bit text, when the session, the read and
    the close succeed: the call reads exactly the bytes from the start offset
    (the cursor, or 0 when the cursor lies beyond the end) to the end of the
    file, returns their records and leaves the cursor at the size of the
    file; when the position file can be written it then holds that size. *)
Theorem remote_call_reads_new_bytes (cfg : Config) (w : LogWorld) (st : State)
    (c : string) :
  use_sftp cfg = true →
  session_available cfg w st →
  remote_log w = Present c →
  remote_read_error w = None →
  remote_close_error w = None →
  0 <= effective_cursor w st →
  is_ascii c →
  let size := file_size_of c in
  let start := start_offset (effective_cursor w st) size in
  ∃ st',
    check_log_for_deaths cfg w st
    = (Ok (if start <? size then remote_records c start else []), st')
    ∧ log_file_position st' = size
    ∧ (if start <? size then
         In (SftpRead (SFTP_LOG_PATH cfg) start (size - start)) (trace st')
         ∧ (position_saved w → within_digit_limit size →
            position_file st' = Some (PyInt.py_str size))
       else position_file st' = position_file st).
Proof.
  intros Hu Hs Hr Hre Hce Hpos Hascii size start.
  destruct (effective_cursor_tail cfg w st) as (st1 & -> & Hdm & Hsc & Hp & Hf).
  destruct (tail_log_remote_read cfg w st1 c) as (st' & Hrun & Hcur & _ & Hrest);
    auto.
  { unfold session_available in *. rewrite Hsc. exact Hs. }
  { rewrite Hp. exact Hpos. }
  rewrite Hp in Hrun, Hrest. fold size start in Hrun, Hrest.
  rewrite (remote_events_ascii c start Hascii) in Hrun.
  exists st'. split; [exact Hrun|]. split; [exact Hcur|].
  destruct (start <? size).
  - destruct Hrest as (_ & Hin & Hw). split; [exact Hin|].
    intros [Ho Hfl] _. auto.
  - congruence.
Qed.

Lemma remote_call_reads_new_bytes_witness :
  ∃ st',
    check_log_for_deaths example_cfg (calm_world death_line)
      (set_log_file_position 1000 tailing_state)
    = (Ok (if start_offset 1000 62 <? 62
           then remote_records death_line (start_offset 1000 62) else []), st')
    ∧ log_file_position st' = 62
    ∧ (if start_offset 1000 62 <? 62 then
         In (SftpRead "/logs/latest.log" (start_offset 1000 62)
               (62 - start_offset 1000 62)) (trace st')
         ∧ (position_saved (calm_world death_line) → within_digit_limit 62 →
            position_file st' = Some (PyInt.py_str 62))
       else position_file st'
            = position_file (set_log_file_position 1000 tailing_state)).
Proof.
  apply (remote_call_reads_new_bytes example_cfg (calm_world death_line)
           (set_log_file_position 1000 tailing_state) death_line);
    try reflexivity.
  - split; [reflexivity|]. left. split; [discriminate|reflexivity].
  - vm_compute. discriminate.
Defined.

(** X6.  On a local file of 7-bit text, when the read and the close succeed:
    the call reads from the start offset to the end of the file, returns the
    records of those lines and leaves the cursor at the size of the file;
    when the position file can be written it then holds that size, also when
    there was nothing new. *)
Theorem local_call_reads_new_bytes (cfg : Config) (w : LogWorld) (st : State)
    (c : string) :
  use_sftp cfg = false →
  truthy (LOG_FILE_PATH cfg) = true →
  local_log w = Present c →
  local_read_error w = None →
  local_close_error w = None →
  0 <= effective_cursor w st →
  is_ascii c →
  let size := file_size_of c in
  let start := start_offset (effective_cursor w st) size in
  ∃ st',
    check_log_for_deaths cfg w st = (Ok (local_records c start), st')
    ∧ log_file_position st' = size
    ∧ In (LocalRead (LOG_FILE_PATH cfg) start) (trace st')
    ∧ (position_saved w → within_digit_limit size →
       position_file st' = Some (PyInt.py_str size)).
Proof.
  intros Hu Hl Hr Hre Hce Hpos Hascii size start.
  destruct (effective_cursor_tail cfg w st) as (st1 & -> & Hdm & Hsc & Hp & Hf).
  destruct (tail_log_local_read cfg w st1 c)
    as (st' & Hrun & Hcur & Hin & _ & Hw); auto.
  { rewrite Hp. exact Hpos. }
  rewrite Hp in Hrun, Hin.
  rewrite (local_events_ascii c _ Hascii) in Hrun.
  exists st'. split; [exact Hrun|]. split; [exact Hcur|]. split; [exact Hin|].
  intros [Ho Hfl] _. auto.
Qed.

Lemma local_call_reads_new_bytes_witness :
  ∃ st',
    check_log_for_deaths example_cfg_local (calm_world death_line) initial_state
    = (Ok (local_records death_line (start_offset 0 62)), st')
    ∧ log_file_position st' = 62
    ∧ In (LocalRead "logs/latest.log" (start_offset 0 62)) (trace st')
    ∧ (position_saved (calm_world death_line) → within_digit_limit 62 →
       position_file st' = Some (PyInt.py_str 62)).
Proof.
  apply (local_call_reads_new_bytes example_cfg_local (calm_world death_line)
           initial_state death_line); reflexivity.
Defined.

(** ** Two calls in a row, no byte written in between *)

(** C5 as written fails: the first call cannot read (the server times out),
    no byte is written, and the second call returns the event. *)
Lemma second_call_after_failed_read :
  fst (check_log_for_deaths example_cfg failing_read_world initial_state) = Ok []
  ∧ fst (check_log_for_deaths example_cfg (calm_world death_line)
           (snd (check_log_for_deaths example_cfg failing_read_world
                   initial_state)))
    = Ok ["Steve fell from a high place"].
Proof. vm_compute. split; reflexivity. Qed.

(** C5 (amended).  A call that finds the cursor at the size of the source
    returns the empty list.  Of two calls in a row on the same bytes, the
    second returns the empty list when it meets the environment of the first,
    faults included; and when nothing failed while the first read its source,
    whatever the second meets. *)
Theorem no_new_bytes_no_events (cfg : Config) (w : LogWorld) (st : State) :
  (∀ c, source cfg w = Present c →
        log_file_position st = file_size_of c →
        ∃ st', check_log_for_deaths cfg w st = (Ok [], st'))
  ∧ (∀ first st1,
       check_log_for_deaths cfg w st = (first, st1) →
       ∃ st2, check_log_for_deaths cfg w st1 = (Ok [], st2))
  ∧ (∀ c w2,
       source cfg w = Present c →
       source cfg w2 = Present c →
       reads_through cfg w st →
       0 <= effective_cursor w st →
       ∃ first st1 st2,
         check_log_for_deaths cfg w st = (Ok first, st1)
         ∧ log_file_position st1 = file_size_of c
         ∧ check_log_for_deaths cfg w2 st1 = (Ok [], st2)).
Proof.
  split; [|split].
  - intros c Hc Hpos. apply check_settled. do 4 right. eauto.
  - intros first st1 Hrun. apply check_settled.
    pose proof (check_settles cfg w st) as H. rewrite Hrun in H. exact H.
  - intros c w2 Hc Hc2 Hthrough Hpos.
    destruct (effective_cursor_tail cfg w st) as (sa & Ha & Hdm & Hsc & Hp & Hf).
    assert (Hfirst : ∃ first st1, tail_log cfg w sa = (Ok first, st1)
                                  ∧ log_file_position st1 = file_size_of c).
    { unfold reads_through, source in *.
      destruct (use_sftp cfg) eqn:Hu.
      - destruct Hthrough as (Hs & Hre & Hce).
        destruct (tail_log_remote_read cfg w sa c) as (st1 & Hrun & Hcur & _); auto.
        + unfold session_available in *. rewrite Hsc. exact Hs.
        + rewrite Hp. exact Hpos.
        + eauto.
      - destruct Hthrough as (Hl & Hre & Hce).
        destruct (tail_log_local_read cfg w sa c) as (st1 & Hrun & Hcur & _); auto.
        + rewrite Hp. exact Hpos.
        + eauto. }
    destruct Hfirst as (first & st1 & Hrun & Hcur).
    rewrite <- Ha in Hrun.
    destruct (check_settled cfg w2 st1) as (st2 & Hrun2).
    { do 4 right. exists c. split; [exact Hc2|]. right. left. exact Hcur. }
    exists first, st1, st2. auto.
Qed.

(** ** Appended bytes *)

Lemma drop_append c d : PyStr.drop (String.length c) (c +:+ d) = d.
Proof. induction c as [|a c IH]; [reflexivity|exact IH]. Qed.

Lemma take_all d : PyStr.take (String.length d) d = d.
Proof. induction d as [|a d IH]; [reflexivity|]. cbn. rewrite IH. reflexivity. Qed.

Lemma file_size_append c d : file_size_of (c +:+ d) = file_size_of c + file_size_of d.
Proof. unfold file_size_of. rewrite length_append. lia. Qed.

(** The bytes of [c ++ d] from the size of [c] on are [d]. *)
Lemma file_bytes_appended c d :
  file_bytes (c +:+ d) (file_size_of c) (file_size_of (c +:+ d) - file_size_of c) = d.
Proof.
  rewrite file_size_append. unfold file_bytes, file_size_of.
  replace (Z.of_nat (String.length c) + Z.of_nat (String.length d)
           - Z.of_nat (String.length c)) with (Z.of_nat (String.length d)) by lia.
  rewrite !Nat2Z.id, drop_append. apply take_all.
Qed.

(** X7.  Over SFTP, when the log grows from [c] (not empty) to [c ++ d],
    with [d] 7-bit text, between two calls that succeed, the second call
    returns the records of [d] alone: nothing of [c] is delivered again and
    nothing of [d] is skipped. *)
Theorem remote_calls_deliver_appended_bytes (cfg : Config) (w1 w2 : LogWorld)
    (st : State) (c d : string) :
  use_sftp cfg = true →
  session_available cfg w1 st →
  sftp_probe_error w2 = None →
  remote_log w1 = Present c →
  remote_log w2 = Present (c +:+ d) →
  remote_read_error w1 = None → remote_close_error w1 = None →
  remote_read_error w2 = None → remote_close_error w2 = None →
  0 <= effective_cursor w1 st →
  0 < file_size_of c →
  is_ascii d →
  ∃ first st1 st2,
    check_log_for_deaths cfg w1 st = (Ok first, st1)
    ∧ check_log_for_deaths cfg w2 st1
      = (Ok (if 0 <? file_size_of d then
               parse_death_messages (PyStr.split_char PyStr.nl d)
             else []), st2)
    ∧ log_file_position st2 = file_size_of (c +:+ d).
Proof.
  intros Hu Hs Hprobe Hr1 Hr2 Hre1 Hce1 Hre2 Hce2 Hpos Hc Hascii.
  destruct (effective_cursor_tail cfg w1 st) as (sa & Ha & Hdm & Hsc & Hp & Hf).
  destruct (tail_log_remote_read cfg w1 sa c) as (st1 & Hrun1 & Hcur1 & Hsess & _);
    auto.
  { unfold session_available in *. rewrite Hsc. exact Hs. }
  { rewrite Hp. exact Hpos. }
  rewrite <- Ha in Hrun1.
  destruct (effective_cursor_tail cfg w2 st1) as (sb & Hb & Hdm2 & Hsc2 & Hp2 & _).
  assert (Heff : log_file_position sb = file_size_of c).
  { rewrite Hp2. unfold effective_cursor. rewrite Hcur1.
    destruct (Z.eqb_spec (file_size_of c) 0); [lia|reflexivity]. }
  destruct (tail_log_remote_read cfg w2 sb (c +:+ d))
    as (st2 & Hrun2 & Hcur2 & _); auto.
  { destruct Hs as [Hpw _]. split; [exact Hpw|]. left. rewrite Hsc2. auto. }
  { rewrite Heff. lia. }
  rewrite <- Hb, Heff in Hrun2.
  pose proof (file_size_nonneg d) as Hd.
  assert (Hstart : start_offset (file_size_of c) (file_size_of (c +:+ d))
                   = file_size_of c).
  { unfold start_offset. rewrite file_size_append.
    destruct (Z.gtb_spec (file_size_of c) (file_size_of c + file_size_of d));
      [lia|reflexivity]. }
  rewrite Hstart in Hrun2. unfold remote_events in Hrun2.
  rewrite file_bytes_appended, (decode_ignore_ascii d Hascii) in Hrun2.
  replace (file_size_of c <? file_size_of (c +:+ d)) with (0 <? file_size_of d)
    in Hrun2.
  2:{ rewrite file_size_append.
      destruct (Z.ltb_spec 0 (file_size_of d)),
        (Z.ltb_spec (file_size_of c) (file_size_of c + file_size_of d));
        try reflexivity; lia. }
  eauto 10.
Qed.

Lemma remote_calls_deliver_appended_bytes_witness :
  ∃ first st1 st2,
    check_log_for_deaths example_cfg (calm_world ("old line" +:+ NL)) tailing_state = (Ok first, st1)
    ∧ check_log_for_deaths example_cfg (calm_world (("old line" +:+ NL) +:+ death_line)) st1
      = (Ok (if 0 <? file_size_of death_line then
               parse_death_messages (PyStr.split_char PyStr.nl death_line)
             else []), st2)
    ∧ log_file_position st2 = file_size_of (("old line" +:+ NL) +:+ death_line).
Proof.
  apply (remote_calls_deliver_appended_bytes example_cfg (calm_world ("old line" +:+ NL)) (calm_world (("old line" +:+ NL) +:+ death_line)) tailing_state); try reflexivity.
  - split; [reflexivity|]. left. split; [discriminate|reflexivity].
  - vm_compute. discriminate.
Defined.

(** ** The position file *)

Lemma translate_newlines_numeral d :
  PyStr.translate_newlines (NilEmpty.string_of_uint d) = NilEmpty.string_of_uint d.
Proof.
  induction d; cbn [NilEmpty.string_of_uint]; [reflexivity|..];
    cbn [PyStr.translate_newlines];
    match goal with
    | |- context [Ascii.eqb ?c PyStr.cr] => change (Ascii.eqb c PyStr.cr) with false
    end; cbv iota; rewrite IHd; reflexivity.
Qed.

Lemma translate_newlines_py_str n :
  PyStr.translate_newlines (PyInt.py_str n) = PyInt.py_str n.
Proof.
  unfold PyInt.py_str. destruct n as [|p|p]; [reflexivity|..];
    cbn [Z.to_int NilZero.string_of_int];
    pose proof (Unsigned.to_uint_nonnil p) as Hp;
    rewrite (string_of_uint_nonnil _ Hp).
  - apply translate_newlines_numeral.
  - cbn [PyStr.translate_newlines].
    change (Ascii.eqb "-" PyStr.cr) with false. cbv iota.
    rewrite translate_newlines_numeral. reflexivity.
Qed.

Lemma position_text_py_str n : position_text (PyInt.py_str n) = PyInt.py_str n.
Proof. unfold position_text. rewrite translate_newlines_py_str. apply strip_py_str. Qed.

Lemma load_after_write w st n :
  within_digit_limit n →
  position_file st = Some (PyInt.py_str n) →
  position_read_error w = None →
  load_log_position w st = (Ok n, add_trace ReadPositionFile st).
Proof.
  intros Hn Hf Hr. unfold load_log_position, try_except, bind, get, io.
  rewrite Hf, Hr, position_text_py_str, (py_int_py_str_within n Hn). reflexivity.
Qed.

Lemma load_after_truncation w st :
  position_file st = Some "" →
  ∃ st', load_log_position w st = (Ok 0, st').
Proof.
  intros Hf. unfold load_log_position, try_except, bind, get, io.
  rewrite Hf. destruct (position_read_error w); eexists; reflexivity.
Qed.

(** X8.  [save_log_position] never raises.  For a position [n] within the
    digit limit: when opening the file fails, the error is logged and the
    file is as it was; when the file was opened and the write or the close
    fails, the error is logged and the file is left empty, so that the next
    load gives 0; when nothing fails, the file holds [str(n)] and
    [load_log_position] reads [n] back. *)
Theorem save_then_load (w : LogWorld) (st : State) (n : Z) :
  within_digit_limit n →
  ∃ st1,
    save_log_position w n st = (Ok tt, st1)
    ∧ match position_write_error w, position_flush_error w with
      | Some e, _ =>
          position_file st1 = position_file st
          ∧ log st1 = log st
                      ++ [(ERROR, "[ERROR] Could not save log position: "
                                  +:+ str_exn e)]
      | None, Some e =>
          position_file st1 = Some ""
          ∧ log st1 = log st
                      ++ [(ERROR, "[ERROR] Could not save log position: "
                                  +:+ str_exn e)]
          ∧ ∀ w', ∃ st2, load_log_position w' st1 = (Ok 0, st2)
      | None, None =>
          position_file st1 = Some (PyInt.py_str n)
          ∧ log st1 = log st
          ∧ ∀ w', position_read_error w' = None →
                  ∃ st2, load_log_position w' st1 = (Ok n, st2) ∧ log st2 = log st
      end.
Proof.
  intros Hn. unfold save_log_position, try_except, bind, io.
  destruct (position_write_error w) as [e|]; cbn.
  - eexists. split; [reflexivity|]. split; reflexivity.
  - destruct (position_flush_error w) as [e|]; cbn.
    + eexists. split; [reflexivity|]. split; [reflexivity|]. split; [reflexivity|].
      intros w'. apply load_after_truncation. reflexivity.
    + eexists. split; [reflexivity|]. split; [reflexivity|]. split; [reflexivity|].
      intros w' Hr. eexists.
      split; [apply (load_after_write _ _ n Hn); [reflexivity|exact Hr]|].
      reflexivity.
Qed.

Lemma save_then_load_witness :
  ∃ st1,
    save_log_position (calm_world "") 62 tailing_state = (Ok tt, st1)
    ∧ position_file st1 = Some (PyInt.py_str 62)
    ∧ log st1 = log tailing_state
    ∧ ∀ w', position_read_error w' = None →
            ∃ st2, load_log_position w' st1 = (Ok 62, st2)
                   ∧ log st2 = log tailing_state.
Proof.
  apply (save_then_load (calm_world "") tailing_state 62).
  vm_compute. discriminate.
Defined.

(** X9.  For a position file of 7-bit text, [load_log_position] never raises
    and changes neither the file nor the cursor: it gives 0 when the file is
    missing, 0 with a warning that carries the error when the file cannot be
    read, 0 with a warning that carries the message of [int] when the text
    is not an integer, and the integer otherwise. *)
Theorem load_defaults_to_zero (w : LogWorld) (st : State) :
  (∀ content, position_file st = Some content → is_ascii content) →
  ∃ n st',
    load_log_position w st = (Ok n, st')
    ∧ position_file st' = position_file st
    ∧ log_file_position st' = log_file_position st
    ∧ match position_file st with
      | None => n = 0 ∧ st' = st
      | Some content =>
          match position_read_error w, PyInt.py_int (position_text content) with
          | None, Some m => n = m ∧ log st' = log st
          | Some e, _ =>
              n = 0
              ∧ log st' = log st
                          ++ [(WARNING, "[WARNING] Could not load log position: "
                                        +:+ str_exn e)]
          | None, None =>
              n = 0
              ∧ log st' = log st
                          ++ [(WARNING, "[WARNING] Could not load log position: "
                                        +:+ PyInt.int_error_message
                                              (position_text content))]
          end
      end.
Proof.
  intros _. unfold load_log_position, try_except, bind, get, io.
  destruct (position_file st) as [content|] eqn:Hf; cbn.
  - destruct (position_read_error w) as [e|]; cbn.
    + eexists _, _. split; [reflexivity|]. cbn. rewrite Hf. repeat split.
    + destruct (PyInt.py_int (position_text content)); cbn;
        eexists _, _; (split; [reflexivity|]); cbn; rewrite Hf; repeat split.
  - eexists _, _. split; [reflexivity|]. rewrite Hf. repeat split.
Qed.

Lemma load_defaults_to_zero_witness :
  ∃ n st',
    load_log_position (calm_world "")
      (set_position_file (Some ("abc" +:+ NL)) initial_state) = (Ok n, st')
    ∧ position_file st' = Some ("abc" +:+ NL)
    ∧ log_file_position st' = 0
    ∧ n = 0
    ∧ log st' = [(WARNING,
                  "[WARNING] Could not load log position: invalid literal for int() with base 10: 'abc'")].
Proof.
  apply (load_defaults_to_zero (calm_world "")
           (set_position_file (Some ("abc" +:+ NL)) initial_state)).
  intros content [= <-]. reflexivity.
Defined.

(** ** Restart *)

(** X10.  A process that starts (cursor 0) with a position file written by an
    earlier run takes up that position; if the source has since kept the
    size that was saved, the first call delivers nothing. *)
Theorem restart_resumes_at_saved_position (cfg : Config) (w : LogWorld)
    (st : State) (n : Z) :
  log_file_position st = 0 →
  position_file st = Some (PyInt.py_str n) →
  within_digit_limit n →
  position_read_error w = None →
  effective_cursor w st = n
  ∧ (∀ c, source cfg w = Present c → file_size_of c = n →
          ∃ st', check_log_for_deaths cfg w st = (Ok [], st')).
Proof.
  intros Hz Hf Hn Hr.
  assert (He : effective_cursor w st = n).
  { unfold effective_cursor, saved_position.
    rewrite Hz, Hf, Hr, position_text_py_str, (py_int_py_str_within n Hn).
    reflexivity. }
  split; [exact He|]. intros c Hc Hsize.
  destruct (effective_cursor_tail cfg w st) as (st1 & -> & Hdm & _ & Hp & _).
  apply tail_log_settled; [exact Hdm|].
  do 4 right. exists c. split; [exact Hc|]. right. left. congruence.
Qed.

Lemma restart_resumes_at_saved_position_witness :
  effective_cursor (calm_world death_line)
    (set_position_file (Some (PyInt.py_str 62)) initial_state) = 62
  ∧ (∀ c, source example_cfg (calm_world death_line) = Present c →
          file_size_of c = 62 →
          ∃ st', check_log_for_deaths example_cfg (calm_world death_line)
                   (set_position_file (Some (PyInt.py_str 62)) initial_state)
                 = (Ok [], st')).
Proof.
  apply (restart_resumes_at_saved_position example_cfg (calm_world death_line)
           (set_position_file (Some (PyInt.py_str 62)) initial_state) 62);
    try reflexivity.
  vm_compute. discriminate.
Defined.

(** ** The cursor is never negative *)

Lemma cursor_sound_written st n :
  0 <= n → cursor_sound st →
  cursor_sound (set_position_file (Some (PyInt.py_str n)) st).
Proof.
  intros Hn [Hc _]. split; [exact Hc|].
  intros content m [= <-]. rewrite position_text_py_str.
  intros Hm. apply py_int_py_str_some in Hm as ->. exact Hn.
Qed.

Lemma cursor_sound_emptied st :
  cursor_sound st → cursor_sound (set_position_file (Some "") st).
Proof.
  intros [Hc _]. split; [exact Hc|].
  intros content m [= <-]. discriminate.
Qed.

Lemma cursor_sound_moved st n :
  0 <= n → cursor_sound st → cursor_sound (set_log_file_position n st).
Proof. intros Hn [_ Hf]. split; [exact Hn|exact Hf]. Qed.

Lemma tail_log_keeps_cursor_sound cfg w :
  steps keeps_cursor_sound (tail_log cfg w).
Proof.
  assert (Hrefl : ∀ st, keeps_cursor_sound st st) by (intros st H; exact H).
  assert (Htrans : ∀ s1 s2 s3, keeps_cursor_sound s1 s2 →
                     keeps_cursor_sound s2 s3 → keeps_cursor_sound s1 s3)
    by (unfold keeps_cursor_sound; auto).
  unfold tail_log, tail_remote, tail_local, save_log_position, rotation_check,
    get_sftp_connection, connect_sftp, logger.
  steps_tac; unfold keeps_cursor_sound; cbn;
    try (intros st H; exact H);
    try (intros st [H1 H2]; split; [exact H1|exact H2]);
    intros st H;
    repeat match goal with
      | c : string |- _ =>
          lazymatch goal with
          | _ : 0 <= file_size_of c |- _ => fail
          | _ => pose proof (file_size_nonneg c)
          end
      end;
    first [ apply cursor_sound_written; [lia|exact H]
          | apply cursor_sound_emptied; exact H
          | apply cursor_sound_moved; [lia|exact H] ].
Qed.

(** X11.  If the cursor is not negative and the position file holds no
    negative number, the same is true after a call, whatever the
    environment does: the cursor only ever becomes 0, the saved position or
    the size of the file, and the file only ever receives a size or is left
    empty. *)
Theorem cursor_stays_sound (cfg : Config) (w : LogWorld) (st : State) :
  cursor_sound st → cursor_sound (snd (check_log_for_deaths cfg w st)).
Proof.
  intros H.
  destruct (resume_position_run w (set_death_messages [] st)) as (L & T & Hrun & _).
  unfold check_log_for_deaths. unfold bind at 1. cbn [modify].
  rewrite (bind_ok _ _ _ _ _ Hrun).
  apply tail_log_keeps_cursor_sound.
  destruct H as [Hc Hf]. split; cbn.
  - destruct (log_file_position st =? 0); [|exact Hc].
    unfold saved_position. cbn.
    destruct (position_file st) as [content|] eqn:E; [|lia].
    destruct (position_read_error w); [lia|].
    destruct (PyInt.py_int (position_text content)) as [n|] eqn:En; cbn; [|lia].
    apply (Hf content n); [reflexivity|exact En].
  - exact Hf.
Qed.

Lemma cursor_stays_sound_witness :
  cursor_sound
    (snd (check_log_for_deaths example_cfg (calm_world death_line) tailing_state)).
Proof.
  apply (cursor_stays_sound example_cfg (calm_world death_line) tailing_state).
  split; [cbn; lia|].
  intros content n [= <-]. vm_compute. intros [= <-]. discriminate.
Defined.

(** ** The file-transfer session *)



(** ** Entering and leaving the loop *)

(** X13.  When the channel is not found, [poll_loop] logs two errors, closes
    the client and returns: no query is made, nothing is sent, the
    participants are left as they were, whatever iterations would follow. *)
Theorem poll_loop_channel_missing (cfg : Config) (sw : StartWorld)
    (ws : list TickWorld) (st : State) (id : string) :
  CHANNEL_ID cfg = Some id →
  is_integer id →
  channel sw = None →
  ∃ st',
    poll_loop cfg sw ws st = (Ok Stopped, st')
    ∧ client_closed st' = true
    ∧ trace st' = trace st ++ [DiscordClose]
    ∧ sent st' = sent st
    ∧ last_online st' = last_online st
    ∧ log st' = log st
                ++ [(ERROR, "[ERROR] Could not find Discord channel with ID: " +:+ id);
                    (ERROR, "Please verify the channel ID and bot permissions.")].
Proof.
  intros Hid [n Hn] Hch. unfold poll_loop. rewrite Hid, Hn, Hch.
  eexists. split; [reflexivity|]. cbn. rewrite <- app_assoc. repeat split.
Qed.

Lemma poll_loop_channel_missing_witness :
  ∃ st',
    poll_loop example_cfg (Build_StartWorld None (Ok "")) [good_tick] initial_state
    = (Ok Stopped, st')
    ∧ client_closed st' = true
    ∧ trace st' = trace initial_state ++ [DiscordClose]
    ∧ sent st' = sent initial_state
    ∧ last_online st' = last_online initial_state
    ∧ log st' = log initial_state
                ++ [(ERROR, "[ERROR] Could not find Discord channel with ID: "
                            +:+ "123456");
                    (ERROR, "Please verify the channel ID and bot permissions.")].
Proof.
  apply (poll_loop_channel_missing example_cfg (Build_StartWorld None (Ok ""))
           [good_tick] initial_state "123456"); [reflexivity| |reflexivity].
  exists 123456. reflexivity.
Defined.








(** ** The names in a reply *)

Lemma split_char_no_sep c s x :
  In x (PyStr.split_char c s) → all_chars (λ a, negb (Ascii.eqb a c)) x = true.
Proof.
  revert x. induction s as [|a s IH]; intros x; cbn.
  - intros [<-|[]]. reflexivity.
  - destruct (Ascii.eqb a c) eqn:E.
    + intros [<-|H]; [reflexivity|apply IH, H].
    + destruct (PyStr.split_char c s) as [|h t].
      * intros [<-|[]]. cbn. rewrite E. reflexivity.
      * intros [<-|H].
        -- cbn. rewrite E. cbn. apply IH. left. reflexivity.
        -- apply IH. right. exact H.
Qed.

Lemma all_chars_lstrip p s :
  all_chars p s = true → all_chars p (PyStr.lstrip s) = true.
Proof.
  induction s as [|a s IH]; cbn; [auto|].
  destruct (p a) eqn:E; [|discriminate]. intros H.
  destruct (PyStr.is_space a); [apply IH, H|]. cbn. rewrite E. exact H.
Qed.

Lemma all_chars_rstrip p s :
  all_chars p s = true → all_chars p (PyStr.rstrip s) = true.
Proof.
  induction s as [|a s IH]; [auto|]. rewrite rstrip_cons. cbn.
  destruct (p a) eqn:E; [|discriminate]. intros H.
  destruct (PyStr.is_empty (PyStr.rstrip s) && PyStr.is_space a); [reflexivity|].
  cbn. rewrite E. apply IH, H.
Qed.

Lemma all_chars_strip p s :
  all_chars p s = true → all_chars p (PyStr.strip s) = true.
Proof. intros H. apply all_chars_rstrip, all_chars_lstrip, H. Qed.

Lemma truthy_nonempty s : truthy s = true ↔ s ≠ "".
Proof. destruct s; cbn; split; congruence. Qed.

Lemma names_of_reply_clean resp : Forall clean_name (names_of_reply resp).
Proof.
  unfold names_of_reply.
  destruct (length (PyStr.split_once "online:" resp) <? 2)%nat; [constructor|].
  destruct (PyStr.is_empty _); [constructor|].
  apply List.Forall_forall. intros x Hx.
  apply in_map_iff in Hx as (n & <- & Hn).
  apply filter_In in Hn as [Hn Ht].
  split; [apply truthy_nonempty, Ht|]. split; [apply strip_idemp|].
  apply all_chars_strip. apply (split_char_no_sep _ _ _ Hn).
Qed.

(** X17.  Every name that [rcon_list_players] returns is non-empty, has no
    whitespace at either end and holds no comma. *)
Theorem reply_names_are_clean (cfg : Config) (reply : Outcome string) :
  returns (λ players, ∀ x, x ∈ players → clean_name x)
    (rcon_list_players cfg reply).
Proof.
  intros st.
  unfold rcon_list_players, try_except, bind, io.
  destruct (PyInt.py_int (RCON_PORT cfg)) as [port|]; cbn [ret raise fst];
    [|exact I].
  destruct reply as [resp|e]; cbn [fst]; [|exact I].
  destruct (negb (PyStr.contains "online:" resp)); cbn [fst].
  - intros x Hx. apply elem_of_empty in Hx. destruct Hx.
  - intros x Hx. apply elem_of_list_to_set in Hx.
    pose proof (names_of_reply_clean resp) as H.
    rewrite List.Forall_forall in H. apply H.
    apply list_elem_of_In, Hx.
Qed.








(** ** When the loop stops *)






(** ** What validation logs *)

(** X20.  For settings of 7-bit text, [validate_configuration] logs its warning exactly when
    POLL_SECONDS is the number 1 or 2, and such a value is not an error: a
    record of level ERROR is logged exactly when the configuration is
    invalid, and a valid one is acknowledged at level INFO. *)
Theorem validation_log_levels (cfg : Config) (st : State) :
  numeric_settings_ascii cfg →
  ∃ valid st' L,
    validate_configuration cfg st = (Ok valid, st')
    ∧ log st' = log st ++ L
    ∧ (In low_poll_warning L
       ↔ ∃ poll, PyInt.py_int (POLL_SECONDS cfg) = Some poll ∧ 1 <= poll < 3)
    ∧ (valid = false ↔ ∃ msg, In (ERROR, msg) L)
    ∧ (valid = true ↔ In (INFO, "[OK] Configuration validation passed") L)
    ∧ (∀ poll, PyInt.py_int (POLL_SECONDS cfg) = Some poll → 1 <= poll →
       ¬ In "POLL_SECONDS must be at least 1" (config_errors cfg)
       ∧ ¬ In "POLL_SECONDS must be a valid integer" (config_errors cfg)).
Proof.
  intros _.
  unfold validate_configuration.
  set (warn := match PyInt.py_int (POLL_SECONDS cfg) with
               | Some poll => if (1 <=? poll) && (poll <? 3)
                              then [low_poll_warning] else []
               | None => []
               end).
  assert (Hw : In low_poll_warning warn
               ↔ ∃ poll, PyInt.py_int (POLL_SECONDS cfg) = Some poll
                         ∧ 1 <= poll < 3).
  { subst warn. destruct (PyInt.py_int (POLL_SECONDS cfg)) as [p|].
    - destruct (Z.leb_spec 1 p), (Z.ltb_spec p 3); cbn; split;
        try (intros []; fail); try (intros [q [[= <-] ?]]; lia); eauto.
    - split; [intros []|intros [q [H _]]; discriminate]. }
  assert (Hnot : ∀ l : Level, l ≠ WARNING → ∀ m, ¬ In (l, m) warn).
  { intros l Hl m. subst warn. unfold low_poll_warning.
    destruct (PyInt.py_int (POLL_SECONDS cfg)) as [p|]; [|intros []].
    destruct ((1 <=? p) && (p <? 3)); [|intros []].
    intros [[= <- _]|[]]. congruence. }
  assert (Hfirst : ∃ s1, (match PyInt.py_int (POLL_SECONDS cfg) with
                          | Some poll =>
                              if (1 <=? poll) && (poll <? 3)
                              then logger WARNING (snd low_poll_warning)
                              else ret tt
                          | None => ret tt
                          end) st = (Ok tt, s1) ∧ log s1 = log st ++ warn).
  { subst warn. destruct (PyInt.py_int (POLL_SECONDS cfg)) as [p|].
    - destruct ((1 <=? p) && (p <? 3)); eexists; (split; [reflexivity|]); cbn;
        rewrite ?app_nil_r; reflexivity.
    - eexists. split; [reflexivity|]. cbn. rewrite app_nil_r. reflexivity. }
  destruct Hfirst as (s1 & Hfirst & Hlog1).
  assert (Hpoll : ∀ poll, PyInt.py_int (POLL_SECONDS cfg) = Some poll → 1 <= poll →
            ¬ In "POLL_SECONDS must be at least 1" (config_errors cfg)
            ∧ ¬ In "POLL_SECONDS must be a valid integer" (config_errors cfg)).
  { intros poll Hp Hge.
    split; intros Hin; apply in_config_errors in Hin as (r & Hv & Hm);
      destruct r; try discriminate Hm.
    - destruct Hv as (q & Hq & Hlt). rewrite Hp in Hq. injection Hq as <-. lia.
    - apply Hv. exists poll. exact Hp. }
  change (logger WARNING _) with (logger WARNING (snd low_poll_warning)).
  rewrite (bind_ok _ _ _ _ _ Hfirst).
  destruct (config_errors cfg) as [|m errors] eqn:Herr.
  - eexists true, _, (warn ++ [(INFO, "[OK] Configuration validation passed")]).
    split; [reflexivity|]. cbn. rewrite Hlog1, <- app_assoc.
    split; [reflexivity|]. split; [|split; [|split; [|exact Hpoll]]].
    + rewrite in_app_iff, Hw. split; [intros [H|[[=]|[]]]; exact H|auto].
    + split; [discriminate|]. intros [msg Hin]. apply in_app_iff in Hin as [Hin|[[=]|[]]].
      apply Hnot in Hin; [destruct Hin|discriminate].
    + split; [|reflexivity]. intros _. apply in_app_iff. right. left. reflexivity.
  - destruct (for_each_logger ERROR (λ error, "  [ERROR] " +:+ error) (m :: errors)
                (add_log ERROR "Configuration validation failed:" s1))
      as (s2 & Hloop & Hlog2).
    unfold bind at 1. cbn [logger modify]. unfold bind at 1. rewrite Hloop.
    eexists false, _, _. split; [reflexivity|]. cbn [log add_log].
    rewrite Hlog2. cbn [log add_log]. rewrite Hlog1, <- !app_assoc.
    split; [reflexivity|].
    set (E := [(ERROR, "Configuration validation failed:")] ++ _).
    assert (HE : ∀ e, In e E → fst e = ERROR).
    { intros e He. subst E. rewrite !in_app_iff in He.
      destruct He as [[<-|[]]|[He|[<-|[]]]]; try reflexivity.
      apply in_map_iff in He as (x & <- & _). reflexivity. }
    split; [|split; [|split; [|exact Hpoll]]].
    + rewrite in_app_iff, Hw. split; [|auto]. intros [H|H]; [exact H|].
      apply HE in H. discriminate.
    + split; [intros _|reflexivity].
      exists "Configuration validation failed:". apply in_app_iff. right. left.
      reflexivity.
    + split; [discriminate|]. intros H. exfalso.
      apply in_app_iff in H as [H|H]; [apply Hnot in H; [exact H|discriminate]|].
      apply HE in H. discriminate.
Qed.

Lemma validation_log_levels_witness :
  ∃ valid st' L,
    validate_configuration example_cfg_fast initial_state = (Ok valid, st')
    ∧ log st' = log initial_state ++ L
    ∧ (In low_poll_warning L
       ↔ ∃ poll, PyInt.py_int (POLL_SECONDS example_cfg_fast) = Some poll
                 ∧ 1 <= poll < 3)
    ∧ (valid = false ↔ ∃ msg, In (ERROR, msg) L)
    ∧ (valid = true ↔ In (INFO, "[OK] Configuration validation passed") L)
    ∧ (∀ poll, PyInt.py_int (POLL_SECONDS example_cfg_fast) = Some poll →
       1 <= poll →
       ¬ In "POLL_SECONDS must be at least 1" (config_errors example_cfg_fast)
       ∧ ¬ In "POLL_SECONDS must be a valid integer"
             (config_errors example_cfg_fast)).
Proof.
  apply (validation_log_levels example_cfg_fast initial_state).
  split; [reflexivity|]. split; [reflexivity|].
  intros s [= <-]. reflexivity.
Defined.

(** ** The lines that the pattern accepts *)

Lemma star_iter_class_inv (step : string → (string → bool) → bool)
    (p : ascii → bool) (k : string → bool) :
  (∀ a s' k', step (String a s') k' = if p a then k' s' else false) →
  (∀ k', step "" k' = false) →
  ∀ n s, star_iter step k n s = true →
         ∃ x rest, s = x +:+ rest ∧ all_chars p x = true ∧ k rest = true.
Proof.
  intros Hstep Hnil. induction n as [|n IH]; intros s H.
  - unfold star_iter in H. destruct (k s) eqn:Hk; [|discriminate].
    exists "", s. auto.
  - change (star_iter step k (S n) s)
      with (if k s then true
            else step s (λ s', if (String.length s' <? String.length s)%nat
                               then star_iter step k n s' else false)) in H.
    destruct (k s) eqn:Hk; [exists "", s; auto|].
    destruct s as [|a s]; [rewrite Hnil in H; discriminate|].
    rewrite Hstep in H. destruct (p a) eqn:Ha; [|discriminate].
    destruct (String.length s <? String.length (String a s))%nat; [|discriminate].
    destruct (IH s H) as (x & rest & -> & Hx & Hrest).
    exists (String a x), rest. split; [reflexivity|]. split; [|exact Hrest].
    cbn. rewrite Ha. exact Hx.
Qed.

Lemma accepts_star_dot_inv icase s k :
  Re.accepts icase (Re.Star Re.Dot) s k = true →
  ∃ x rest, s = x +:+ rest ∧ all_chars not_newline x = true ∧ k rest = true.
Proof.
  rewrite accepts_star. apply star_iter_class_inv.
  - intros a s' k'. cbn. unfold not_newline. destruct (Ascii.eqb a PyStr.nl); reflexivity.
  - reflexivity.
Qed.

Lemma accepts_plus_word_inv icase s k :
  Re.accepts icase (Re.Plus Re.Word) s k = true →
  ∃ name rest, s = name +:+ rest ∧ name ≠ ""
               ∧ all_chars PyStr.is_word name = true ∧ k rest = true.
Proof.
  unfold Re.Plus. rewrite accepts_cat.
  destruct s as [|a s]; [discriminate|]. cbn [Re.accepts].
  destruct (PyStr.is_word a) eqn:Ha; [|discriminate].
  change ((fix iter (fuel : nat) (s0 : string) {struct fuel} : bool := _)
            (String.length s) s)
    with (Re.accepts icase (Re.Star Re.Word) s k).
  rewrite accepts_star. intros H.
  apply (star_iter_class_inv _ PyStr.is_word) in H
    as (x & rest & -> & Hx & Hrest); [|reflexivity|reflexivity].
  exists (String a x), rest. split; [reflexivity|]. split; [discriminate|].
  split; [cbn; rewrite Ha; exact Hx|exact Hrest].
Qed.

Lemma accepts_lit_inv kw s k :
  Re.accepts true (Re.lit kw) s k = true →
  ∃ phrase rest, s = phrase +:+ rest ∧ lower_str phrase = lower_str kw
                 ∧ k rest = true.
Proof.
  revert s. induction kw as [|c kw IH]; intros s H.
  - exists "", s. auto.
  - cbn [Re.lit Re.accepts] in H. destruct s as [|a s]; [discriminate|].
    destruct (Ascii.eqb (PyStr.lower a) (PyStr.lower c)) eqn:E; [|discriminate].
    apply Ascii.eqb_eq in E.
    destruct (IH s H) as (phrase & rest & -> & Hp & Hk).
    exists (String a phrase), rest. split; [reflexivity|]. split; [|exact Hk].
    cbn. rewrite E, Hp. reflexivity.
Qed.

Lemma accepts_alts_inv icase rs s k :
  rs ≠ [] → Re.accepts icase (Re.alts rs) s k = true →
  ∃ r, In r rs ∧ Re.accepts icase r s k = true.
Proof.
  induction rs as [|r0 rs IH]; [congruence|]. intros _ H.
  destruct rs as [|r1 rs].
  - exists r0. split; [left; reflexivity|exact H].
  - cbn [Re.alts Re.accepts] in H.
    destruct (Re.accepts icase r0 s k) eqn:E.
    + exists r0. split; [left; reflexivity|exact E].
    + destruct (IH ltac:(discriminate) H) as (r & Hin & Hr).
      exists r. split; [right; exact Hin|exact Hr].
Qed.

Lemma search_inv icase r s :
  Re.search icase r s = true →
  ∃ pre t, s = pre +:+ t ∧ Re.accepts icase r t (λ _, true) = true.
Proof.
  unfold Re.search. induction s as [|a s IH]; cbn [Re.suffixes existsb].
  - rewrite orb_false_r. intros H. exists "", "". auto.
  - destruct (Re.accepts icase r (String a s) (λ _, true)) eqn:E.
    + intros _. exists "", (String a s). auto.
    + cbn [orb]. intros H. destruct (IH H) as (pre & t & -> & Ht).
      exists (String a pre), t. auto.
Qed.

Lemma search_app icase r pre t :
  Re.search icase r t = true → Re.search icase r (pre +:+ t) = true.
Proof.
  intros H. induction pre as [|a pre IH]; [exact H|].
  rewrite append_String. unfold Re.search in *. cbn [Re.suffixes existsb].
  rewrite IH. apply orb_true_r.
Qed.

(** Case folding does not confuse a character that is not a letter with
    another one. *)
Lemma lower_not_letter a c :
  PyStr.is_upper c = false → PyStr.is_lower c = false →
  PyStr.lower a = PyStr.lower c → a = c.
Proof.
  intros Hu Hl. unfold PyStr.lower at 2. rewrite Hu. intros <-.
  revert Hl.
  destruct a as [[] [] [] [] [] [] [] []]; try reflexivity;
    vm_compute; discriminate.
Qed.

Lemma accepts_chr_inv c s k :
  PyStr.is_upper c = false → PyStr.is_lower c = false →
  Re.accepts true (Re.Chr c) s k = true →
  ∃ s', s = String c s' ∧ k s' = true.
Proof.
  intros Hu Hl. cbn [Re.accepts]. destruct s as [|a s]; [discriminate|].
  destruct (Ascii.eqb (PyStr.lower a) (PyStr.lower c)) eqn:E; [|discriminate].
  apply Ascii.eqb_eq in E. apply (lower_not_letter a c Hu Hl) in E as ->.
  intros H. exists s. auto.
Qed.

Lemma lower_str_marker phrase : lower_str phrase = lower_str "]: " → phrase = "]: ".
Proof.
  destruct phrase as [|a [|b [|c [|d phrase]]]]; try discriminate.
  cbn. intros [= Ha Hb Hc].
  apply (lower_not_letter a "]") in Ha; [|reflexivity|reflexivity].
  apply (lower_not_letter b ":") in Hb; [|reflexivity|reflexivity].
  apply (lower_not_letter c " ") in Hc; [|reflexivity|reflexivity].
  subst. reflexivity.
Qed.

Lemma pattern_accepts_inv t :
  Re.accepts true death_pattern t (λ _, true) = true →
  ∃ x name phrase kw rest,
    t = "[" +:+ x +:+ "]: " +:+ name +:+ " " +:+ phrase +:+ rest
    ∧ all_chars not_newline x = true
    ∧ name ≠ ""
    ∧ all_chars PyStr.is_word name = true
    ∧ In kw death_keywords
    ∧ lower_str phrase = lower_str kw.
Proof.
  unfold death_pattern. rewrite accepts_cat. intros H.
  apply accepts_chr_inv in H as (t1 & -> & H); [|reflexivity|reflexivity].
  rewrite accepts_cat in H.
  apply accepts_star_dot_inv in H as (x & t2 & -> & Hx & H).
  rewrite accepts_cat in H.
  apply accepts_lit_inv in H as (m & t3 & -> & Hm & H).
  apply lower_str_marker in Hm as ->.
  rewrite accepts_cat in H.
  apply accepts_plus_word_inv in H as (name & t4 & -> & Hne & Hw & H).
  rewrite accepts_cat in H.
  apply accepts_chr_inv in H as (t5 & -> & H); [|reflexivity|reflexivity].
  apply accepts_alts_inv in H as (r & Hin & H); [|discriminate].
  apply in_map_iff in Hin as (kw & <- & Hkw).
  apply accepts_lit_inv in H as (phrase & rest & -> & Hp & _).
  exists x, name, phrase, kw, rest. repeat split; auto.
Qed.

Lemma search_death_shape line :
  Re.search true death_pattern line = true ↔ death_shape line.
Proof.
  unfold death_shape. split.
  - intros H. apply search_inv in H as (pre & t & -> & H).
    apply pattern_accepts_inv in H
      as (x & name & phrase & kw & rest & -> & Hx & Hne & Hw & Hkw & Hp).
    exists pre, x, name, phrase, kw, rest. auto 10.
  - intros (pre & x & name & phrase & kw & rest & -> & Hx & Hne & Hw & Hkw & Hp).
    apply search_app. apply (pattern_accepts x name phrase kw rest); assumption.
Qed.

(** X21.  In a line of 7-bit text the pattern finds a match exactly when the
    line has, somewhere, a "[", characters other than newline, "]: ", a word
    of letters, digits and underscores, one blank, and a phrase of the
    vocabulary written in any case. *)
Theorem death_pattern_language (line : string) :
  is_ascii line →
  Re.search true death_pattern line = true ↔ death_shape line.
Proof. intros _. apply search_death_shape. Qed.

Lemma death_pattern_language_witness :
  Re.search true death_pattern
    "[12:00:00] [Server thread/INFO]: Steve joined the game" = true
  ↔ death_shape "[12:00:00] [Server thread/INFO]: Steve joined the game".
Proof.
  apply (death_pattern_language
           "[12:00:00] [Server thread/INFO]: Steve joined the game").
  reflexivity.
Defined.

Lemma parse_line_grows acc line m :
  In m (parse_line acc line) → In m acc ∨ Re.search true death_pattern line = true.
Proof.
  unfold parse_line. destruct (Re.search true death_pattern line); auto.
Qed.

Lemma fold_parse_line_source lines acc m :
  In m (fold_left parse_line lines acc) →
  In m acc ∨ ∃ line, In line lines ∧ Re.search true death_pattern line = true.
Proof.
  revert acc. induction lines as [|l lines IH]; intros acc H; [auto|].
  cbn [fold_left] in H. apply IH in H as [H|(line & Hin & Hs)].
  - apply parse_line_grows in H as [H|H]; [auto|].
    right. exists l. split; [left; reflexivity|exact H].
  - right. exists line. split; [right; exact Hin|exact Hs].
Qed.

(** X22.  Lines of 7-bit text without a phrase of the vocabulary give no
    record: when no line of a batch has the shape above, the extractor
    returns the empty list. *)
Theorem no_keyword_no_record (lines : list string) :
  Forall is_ascii lines →
  Forall (λ line, ¬ death_shape line) lines →
  parse_death_messages lines = [].
Proof.
  intros _ H. destruct (parse_death_messages lines) as [|m l] eqn:E; [reflexivity|].
  exfalso. unfold parse_death_messages in E.
  assert (Hin : In m (fold_left parse_line lines [])) by (rewrite E; left; reflexivity).
  apply fold_parse_line_source in Hin as [[]|(line & Hin & Hs)].
  rewrite List.Forall_forall in H. apply (H line Hin).
  apply search_death_shape, Hs.
Qed.

Lemma no_keyword_no_record_witness :
  parse_death_messages
    ["[12:00:00] [Server thread/INFO]: Steve joined the game";
     "Steve fell from a high place"] = [].
Proof.
  apply (no_keyword_no_record
           ["[12:00:00] [Server thread/INFO]: Steve joined the game";
            "Steve fell from a high place"]).
  - repeat constructor.
  - constructor; [|constructor; [|constructor]];
      intros H; apply search_death_shape in H; vm_compute in H; discriminate.
Defined.

(** X23.  The text of a record is cut after the first "]: " of the line and
    only when that is not at the very start: a line that begins with "]: "
    gives no record, even where the pattern finds a match further on. *)
Theorem line_starting_with_marker_is_dropped (rest : string) (lines1 lines2 : list string) :
  parse_death_messages (lines1 ++ ["]: " +:+ rest] ++ lines2)
  = parse_death_messages (lines1 ++ lines2)
  ∧ Re.search true death_pattern ("]: " +:+ "[12:00:00]: Steve died") = true.
Proof.
  split; [|vm_compute; reflexivity].
  unfold parse_death_messages. rewrite !fold_left_app. cbn [fold_left].
  f_equal. unfold parse_line.
  destruct (Re.search true death_pattern ("]: " +:+ rest)); reflexivity.
Qed.

(** ** Appended lines, local file *)

(** X24.  With a local log, when the file grows from [c] (not empty) to
    [c ++ d], with [d] 7-bit text, between two calls that succeed, the second
    call returns the records of the lines of [d] alone. *)
Theorem local_calls_deliver_appended_lines (cfg : Config) (w1 w2 : LogWorld)
    (st : State) (c d : string) :
  use_sftp cfg = false →
  truthy (LOG_FILE_PATH cfg) = true →
  local_log w1 = Present c →
  local_log w2 = Present (c +:+ d) →
  local_read_error w1 = None → local_close_error w1 = None →
  local_read_error w2 = None → local_close_error w2 = None →
  0 <= effective_cursor w1 st →
  0 < file_size_of c →
  is_ascii d →
  ∃ first st1 st2,
    check_log_for_deaths cfg w1 st = (Ok first, st1)
    ∧ check_log_for_deaths cfg w2 st1
      = (Ok (parse_death_messages (PyStr.readlines d)), st2)
    ∧ log_file_position st2 = file_size_of (c +:+ d).
Proof.
  intros Hu Hl Hr1 Hr2 Hre1 Hce1 Hre2 Hce2 Hpos Hc Hascii.
  destruct (effective_cursor_tail cfg w1 st) as (sa & Ha & Hdm & Hsc & Hp & Hf).
  destruct (tail_log_local_read cfg w1 sa c) as (st1 & Hrun1 & Hcur1 & _); auto.
  { rewrite Hp. exact Hpos. }
  rewrite <- Ha in Hrun1.
  destruct (effective_cursor_tail cfg w2 st1) as (sb & Hb & Hdm2 & Hsc2 & Hp2 & _).
  assert (Heff : log_file_position sb = file_size_of c).
  { rewrite Hp2. unfold effective_cursor. rewrite Hcur1.
    destruct (Z.eqb_spec (file_size_of c) 0); [lia|reflexivity]. }
  destruct (tail_log_local_read cfg w2 sb (c +:+ d))
    as (st2 & Hrun2 & Hcur2 & _); auto.
  { rewrite Heff. lia. }
  rewrite <- Hb, Heff in Hrun2.
  pose proof (file_size_nonneg d) as Hd.
  assert (Hstart : start_offset (file_size_of c) (file_size_of (c +:+ d))
                   = file_size_of c).
  { unfold start_offset. rewrite file_size_append.
    destruct (Z.gtb_spec (file_size_of c) (file_size_of c + file_size_of d));
      [lia|reflexivity]. }
  rewrite Hstart in Hrun2. unfold local_events, file_size_of in Hrun2.
  rewrite Nat2Z.id, drop_append, (decode_ignore_ascii d Hascii) in Hrun2.
  eauto 10.
Qed.

Lemma local_calls_deliver_appended_lines_witness :
  ∃ first st1 st2,
    check_log_for_deaths example_cfg_local (calm_world ("old line" +:+ NL))
      initial_state = (Ok first, st1)
    ∧ check_log_for_deaths example_cfg_local
        (calm_world (("old line" +:+ NL) +:+ death_line)) st1
      = (Ok (parse_death_messages (PyStr.readlines death_line)), st2)
    ∧ log_file_position st2 = file_size_of (("old line" +:+ NL) +:+ death_line).
Proof.
  apply (local_calls_deliver_appended_lines example_cfg_local
           (calm_world ("old line" +:+ NL))
           (calm_world (("old line" +:+ NL) +:+ death_line)) initial_state);
    reflexivity.
Defined.

(** ** The password of the file-transfer session *)

(** X25.  The file ".sftp_password" is looked at only when SFTP_PASSWORD is
    set and holds no "#": it cannot supply a password that the variable
    does not announce, so without the variable no session is ever opened;
    and when the file is used and holds only whitespace, the session is
    switched off although the variable is set. *)
Theorem password_file_resolution (cfg : Config) (w : LogWorld) (st : State)
    (raw : string) (file : option string) :
  SFTP_PASSWORD cfg = sftp_password raw file →
  (raw = "" ∨ (PyStr.contains "#" raw = false
               ∧ ∃ content, file = Some content
                            ∧ PyStr.strip (PyStr.translate_newlines content) = "")) →
  get_sftp_connection cfg w st = (Ok None, st)
  ∧ (use_sftp cfg = true → ∃ st', check_log_for_deaths cfg w st = (Ok [], st')).
Proof.
  intros Hcfg Hcase.
  assert (Hpw : truthy (SFTP_PASSWORD cfg) = false).
  { rewrite Hcfg. unfold sftp_password.
    destruct Hcase as [->|(Hno & content & -> & Hempty)]; [reflexivity|].
    rewrite Hno. destruct (truthy raw) eqn:E; cbn.
    - rewrite Hempty. reflexivity.
    - exact E. }
  split.
  - unfold get_sftp_connection. rewrite Hpw, !orb_true_r. reflexivity.
  - intros Hu. apply check_settled. right. left. split; [exact Hu|].
    left. exact Hpw.
Qed.

Lemma password_file_resolution_witness :
  get_sftp_connection example_cfg_no_secret (calm_world death_line) initial_state
  = (Ok None, initial_state)
  ∧ (use_sftp example_cfg_no_secret = true →
     ∃ st', check_log_for_deaths example_cfg_no_secret (calm_world death_line)
              initial_state = (Ok [], st')).
Proof.
  apply (password_file_resolution example_cfg_no_secret (calm_world death_line)
           initial_state "abc" (Some (" " +:+ NL))).
  - reflexivity.
  - right. split; [reflexivity|]. exists (" " +:+ NL). split; reflexivity.
Defined.

(** ** Reads that fail *)

(** X26.  Over SFTP, for a log of 7-bit text, a read that fails costs
    nothing: the call returns no record and leaves the cursor and the
    position file as they were, so the next call whose read succeeds returns
    the records of the same bytes. *)
Theorem failed_remote_read_is_retried (cfg : Config) (w1 w2 : LogWorld)
    (st : State) (c : string) (e : exn) :
  use_sftp cfg = true →
  session_available cfg w1 st →
  remote_log w1 = Present c →
  remote_read_error w1 = Some e →
  sftp_probe_error w2 = None →
  remote_log w2 = Present c →
  remote_read_error w2 = None →
  remote_close_error w2 = None →
  0 < effective_cursor w1 st <= file_size_of c →
  is_ascii c →
  let cursor := effective_cursor w1 st in
  ∃ st1 st2,
    check_log_for_deaths cfg w1 st = (Ok [], st1)
    ∧ log_file_position st1 = cursor
    ∧ position_file st1 = position_file st
    ∧ check_log_for_deaths cfg w2 st1
      = (Ok (if cursor <? file_size_of c then remote_records c cursor else []), st2)
    ∧ log_file_position st2 = file_size_of c.
Proof.
  intros Hu Hs Hr1 Hre1 Hprobe Hr2 Hre2 Hce2 Hpos Hascii cursor.
  destruct (effective_cursor_tail cfg w1 st) as (sa & Ha & Hdm & Hsc & Hp & Hf).
  destruct (tail_log_remote_read_fails cfg w1 sa c e)
    as (st1 & Hrun1 & Hcur1 & Hfile1 & _ & Hsess); auto.
  { unfold session_available in *. rewrite Hsc. exact Hs. }
  { rewrite Hp. lia. }
  rewrite <- Ha in Hrun1. rewrite Hp in Hcur1. fold cursor in Hcur1.
  destruct (effective_cursor_tail cfg w2 st1) as (sb & Hb & Hdm2 & Hsc2 & Hp2 & _).
  assert (Heff : log_file_position sb = cursor).
  { rewrite Hp2. unfold effective_cursor. rewrite Hcur1.
    destruct (Z.eqb_spec cursor 0); [subst cursor; lia|reflexivity]. }
  destruct (tail_log_remote_read cfg w2 sb c) as (st2 & Hrun2 & Hcur2 & _); auto.
  { destruct Hs as [Hpw _]. split; [exact Hpw|]. left. rewrite Hsc2. auto. }
  { rewrite Heff. subst cursor. lia. }
  rewrite <- Hb, Heff in Hrun2.
  assert (Hstart : start_offset cursor (file_size_of c) = cursor).
  { unfold start_offset.
    destruct (Z.gtb_spec cursor (file_size_of c)); [subst cursor; lia|reflexivity]. }
  rewrite Hstart, (remote_events_ascii c cursor Hascii) in Hrun2.
  exists st1, st2. rewrite Hfile1, Hf. auto.
Qed.

Lemma failed_remote_read_is_retried_witness :
  ∃ st1 st2,
    check_log_for_deaths example_cfg failing_read_world tailing_state
    = (Ok [], st1)
    ∧ log_file_position st1 = 40
    ∧ position_file st1 = position_file tailing_state
    ∧ check_log_for_deaths example_cfg (calm_world death_line) st1
      = (Ok (if 40 <? file_size_of death_line
             then remote_records death_line 40 else []), st2)
    ∧ log_file_position st2 = file_size_of death_line.
Proof.
  apply (failed_remote_read_is_retried example_cfg failing_read_world
           (calm_world death_line) tailing_state death_line (OSError "timed out"));
    try reflexivity.
  - split; [reflexivity|]. left. split; [discriminate|reflexivity].
  - vm_compute. split; [reflexivity|discriminate].
Defined.

(** X27.  On a local file of 7-bit text as well: a read that fails returns no record,
    logs the error and leaves the cursor and the position file as they
    were, and the next call whose read succeeds returns the records from
    the same offset on. *)
Theorem failed_local_read_is_retried (cfg : Config) (w1 w2 : LogWorld)
    (st : State) (c : string) (e : exn) :
  use_sftp cfg = false →
  truthy (LOG_FILE_PATH cfg) = true →
  local_log w1 = Present c →
  local_read_error w1 = Some e →
  local_log w2 = Present c →
  local_read_error w2 = None →
  local_close_error w2 = None →
  0 < effective_cursor w1 st <= file_size_of c →
  is_ascii c →
  let cursor := effective_cursor w1 st in
  ∃ st1 st2,
    check_log_for_deaths cfg w1 st = (Ok [], st1)
    ∧ log_file_position st1 = cursor
    ∧ position_file st1 = position_file st
    ∧ last (log st1)
      = Some (ERROR, "[ERROR] Error reading log file: " +:+ str_exn e)
    ∧ check_log_for_deaths cfg w2 st1 = (Ok (local_records c cursor), st2)
    ∧ log_file_position st2 = file_size_of c.
Proof.
  intros Hu Hl Hr1 Hre1 Hr2 Hre2 Hce2 Hpos Hascii cursor.
  destruct (effective_cursor_tail cfg w1 st) as (sa & Ha & Hdm & Hsc & Hp & Hf).
  destruct (tail_log_local_read_fails cfg w1 sa c e)
    as (st1 & Hrun1 & Hcur1 & Hfile1 & _ & Hlog); auto.
  { rewrite Hp. lia. }
  rewrite <- Ha in Hrun1. rewrite Hp in Hcur1. fold cursor in Hcur1.
  destruct (effective_cursor_tail cfg w2 st1) as (sb & Hb & Hdm2 & Hsc2 & Hp2 & _).
  assert (Heff : log_file_position sb = cursor).
  { rewrite Hp2. unfold effective_cursor. rewrite Hcur1.
    destruct (Z.eqb_spec cursor 0); [subst cursor; lia|reflexivity]. }
  destruct (tail_log_local_read cfg w2 sb c) as (st2 & Hrun2 & Hcur2 & _); auto.
  { rewrite Heff. subst cursor. lia. }
  rewrite <- Hb, Heff in Hrun2.
  assert (Hstart : start_offset cursor (file_size_of c) = cursor).
  { unfold start_offset.
    destruct (Z.gtb_spec cursor (file_size_of c)); [subst cursor; lia|reflexivity]. }
  rewrite Hstart, (local_events_ascii c cursor Hascii) in Hrun2.
  exists st1, st2. rewrite Hfile1, Hf. auto 10.
Qed.

Lemma failed_local_read_is_retried_witness :
  ∃ st1 st2,
    check_log_for_deaths example_cfg_local
      (Build_LogWorld None None None None None Missing None None
         (Present death_line) (Some (OSError "permission denied")) None)
      tailing_state = (Ok [], st1)
    ∧ log_file_position st1 = 40
    ∧ position_file st1 = position_file tailing_state
    ∧ last (log st1)
      = Some (ERROR, "[ERROR] Error reading log file: "
                     +:+ str_exn (OSError "permission denied"))
    ∧ check_log_for_deaths example_cfg_local (calm_world death_line) st1
      = (Ok (local_records death_line 40), st2)
    ∧ log_file_position st2 = file_size_of death_line.
Proof.
  apply (failed_local_read_is_retried example_cfg_local
           (Build_LogWorld None None None None None Missing None None
              (Present death_line) (Some (OSError "permission denied")) None)
           (calm_world death_line) tailing_state death_line
           (OSError "permission denied"));
    try reflexivity.
  vm_compute. split; [reflexivity|discriminate].
Defined.
